(** * JS error capture: a shallow embedding of [beforeStreamlit.py]

    The script drives a page through unscripted interactions and records the
    client-side faults it sees.  This development embeds the parts of the
    script that decide what is recorded, clicked and recovered:

    - the error pipeline ([generate_error_signature], [handle_error],
      [save_error_to_json], [initialize_error_json], [extract_code_context],
      [get_code_context_from_location]),
    - the listeners registered in [main] ([on_page_error], [on_console],
      [on_promise_rejection], [on_custom_error]) and the navigation guard
      ([handle_navigation]),
    - the three exploration phases of [AdvancedBlindInteractionStrategy]
      ([click_all_links_and_buttons], the suggestion loop of
      [test_input_fields_specifically], [recursive_monkey_exploration]),
    - [display_final_summary] and [get_xpath].

    Python values are modelled as they are used: a [str] is a list of code
    points, a dict with string keys is a [gmap string pyval], the module-level
    globals form one record that every function threads through, and a raised
    exception is a [None]/[inl] result that the enclosing [try] of the source
    catches at the place the source catches it.  Writing [error.json] and
    printing can raise: both fail on a lone surrogate, as the UTF-8 codec of
    Python does.

    The listeners and the guard are coroutines of one event loop.  A
    coroutine runs without interruption from one [await] that suspends it to
    the next; the model cuts each coroutine at these points and a session is
    a sequence of such steps in any order the loop may run them.  A dict that
    a listener shares with the buffer of the guard lives in a store, and both
    hold its address.  What the browser driver answers (Playwright) is an
    input of the model. *)

From Stdlib Require Import ZArith NArith List String Ascii DecimalString Lia.
From Stdlib Require DecimalPos DecimalZ.
From stdpp Require Import base option list gmap strings.
From Equations Require Import Equations.
Import ListNotations.

Local Open Scope Z_scope.

(** ** Python values *)

Module Py.

(** A Python [str]: the sequence of its Unicode code points. *)
Abbreviation pystr := (list N).

(** An ASCII literal of the source, as a [str]. *)
Definition lit (s : string) : pystr :=
  map N_of_ascii (list_ascii_of_string s).

(** The scalar values that travel through [error_details] and the ledger. *)
Inductive pyval : Type :=
| PNone : pyval
| PBool : bool -> pyval
| PInt : Z -> pyval
| PStr : pystr -> pyval.

#[global] Instance pyval_eq_dec : EqDecision pyval.
Proof. solve_decision. Defined.

(** Truth value of [if v], [v or ...], [not v]. *)
Definition truthy (v : pyval) : bool :=
  match v with
  | PNone => false
  | PBool b => b
  | PInt z => negb (z =? 0)
  | PStr s => match s with [] => false | _ => true end
  end.

(** [str(v)]. *)
Definition str (v : pyval) : pystr :=
  match v with
  | PNone => lit "None"
  | PBool true => lit "True"
  | PBool false => lit "False"
  | PInt z => lit (NilZero.string_of_int (Z.to_int z))
  | PStr s => s
  end.

(** The number a [bool] or an [int] compares as. *)
Definition as_number (v : pyval) : option Z :=
  match v with
  | PBool b => Some (if b then 1 else 0)
  | PInt z => Some z
  | _ => None
  end.

(** [a == b]: [True == 1] holds in Python, a [str] never equals a number
    and [None] equals only [None]. *)
Definition eqb (a b : pyval) : bool :=
  match as_number a, as_number b with
  | Some x, Some y => x =? y
  | None, None => bool_decide (a = b)
  | _, _ => false
  end.

(** [s[:n]]. *)
Definition slice_to (n : nat) (s : pystr) : pystr := firstn n s.

(** [sep.join(parts)]. *)
Fixpoint join (sep : pystr) (parts : list pystr) : pystr :=
  match parts with
  | [] => []
  | [p] => p
  | p :: rest => p ++ sep ++ join sep rest
  end.

(** [s.split('\n')]: always at least one piece. *)
Fixpoint split_lines (s : pystr) : list pystr :=
  match s with
  | [] => [[]]
  | c :: rest =>
      if (c =? 10)%N then [] :: split_lines rest
      else match split_lines rest with
           | [] => [[c]]
           | l :: ls => (c :: l) :: ls
           end
  end.

(** [c.isspace()] for one code point: the characters [str.strip()] removes. *)
Definition isspace (c : N) : bool :=
  ((9 <=? c) && (c <=? 13) || (28 <=? c) && (c <=? 32)
   || (c =? 133) || (c =? 160) || (c =? 5760)
   || (8192 <=? c) && (c <=? 8202)
   || (c =? 8232) || (c =? 8233) || (c =? 8239) || (c =? 8287)
   || (c =? 12288))%N.

Fixpoint lstrip (s : pystr) : pystr :=
  match s with
  | [] => []
  | c :: rest => if isspace c then lstrip rest else s
  end.

Definition rstrip (s : pystr) : pystr := rev (lstrip (rev s)).

(** [s.strip()]. *)
Definition strip (s : pystr) : pystr := rstrip (lstrip s).

(** [s.encode('utf-8')]; [None] is the [UnicodeEncodeError] Python raises
    on a lone surrogate. *)
Definition utf8_char (c : N) : option (list Z) :=
  let z := Z.of_N c in
  if z <? 128 then Some [z]
  else if z <? 2048 then
    Some [Z.lor 192 (Z.shiftr z 6); Z.lor 128 (Z.land z 63)]
  else if z <? 65536 then
    if (55296 <=? z) && (z <=? 57343) then None
    else Some [Z.lor 224 (Z.shiftr z 12);
               Z.lor 128 (Z.land (Z.shiftr z 6) 63);
               Z.lor 128 (Z.land z 63)]
  else if z <? 1114112 then
    Some [Z.lor 240 (Z.shiftr z 18);
          Z.lor 128 (Z.land (Z.shiftr z 12) 63);
          Z.lor 128 (Z.land (Z.shiftr z 6) 63);
          Z.lor 128 (Z.land z 63)]
  else None.

Fixpoint encode_utf8 (s : pystr) : option (list Z) :=
  match s with
  | [] => Some []
  | c :: rest =>
      match utf8_char c, encode_utf8 rest with
      | Some bs, Some more => Some (bs ++ more)
      | _, _ => None
      end
  end.

End Py.
Import Py.

(** ** [hashlib.md5]

    MD5 as RFC 1321 gives it, on bytes and 32-bit words kept in [Z] with the
    wrap-around written out. *)

Module Md5.

Definition mask32 : Z := 4294967295.

Definition add32 (x y : Z) : Z := Z.land (x + y) mask32.

Definition not32 (x : Z) : Z := Z.lxor x mask32.

Definition rotl32 (x : Z) (n : Z) : Z :=
  Z.land (Z.lor (Z.shiftl x n) (Z.shiftr x (32 - n))) mask32.

(** [floor(2^32 * abs(sin(i + 1)))] for [i] from 0 to 63. *)
Definition K : list Z :=
  [ 3614090360; 3905402710; 606105819; 3250441966; 4118548399; 1200080426;
    2821735955; 4249261313; 1770035416; 2336552879; 4294925233; 2304563134;
    1804603682; 4254626195; 2792965006; 1236535329; 4129170786; 3225465664;
    643717713; 3921069994; 3593408605; 38016083; 3634488961; 3889429448;
    568446438; 3275163606; 4107603335; 1163531501; 2850285829; 4243563512;
    1735328473; 2368359562; 4294588738; 2272392833; 1839030562; 4259657740;
    2763975236; 1272893353; 4139469664; 3200236656; 681279174; 3936430074;
    3572445317; 76029189; 3654602809; 3873151461; 530742520; 3299628645;
    4096336452; 1126891415; 2878612391; 4237533241; 1700485571; 2399980690;
    4293915773; 2240044497; 1873313359; 4264355552; 2734768916; 1309151649;
    4149444226; 3174756917; 718787259; 3951481745 ].

(** Per-step left rotations. *)
Definition S : list Z :=
  [ 7; 12; 17; 22; 7; 12; 17; 22; 7; 12; 17; 22; 7; 12; 17; 22;
    5; 9; 14; 20; 5; 9; 14; 20; 5; 9; 14; 20; 5; 9; 14; 20;
    4; 11; 16; 23; 4; 11; 16; 23; 4; 11; 16; 23; 4; 11; 16; 23;
    6; 10; 15; 21; 6; 10; 15; 21; 6; 10; 15; 21; 6; 10; 15; 21 ].

Record regs : Type := Regs { rA : Z; rB : Z; rC : Z; rD : Z }.

Definition init : regs :=
  Regs 1732584193 4023233417 2562383102 271733878.

(** The message with its padding: a single 1 bit, zeros up to 56 modulo 64
    and the bit length as a 64-bit little-endian number. *)
Definition le_bytes (n : nat) (x : Z) : list Z :=
  map (fun i => Z.land (Z.shiftr x (8 * Z.of_nat i)) 255) (seq 0 n).

Definition pad (msg : list Z) : list Z :=
  let len := Z.of_nat (length msg) in
  let zeros := Z.to_nat ((55 - len) mod 64) in
  msg ++ [128] ++ repeat 0 zeros ++ le_bytes 8 (Z.land (8 * len) (2 ^ 64 - 1)).

Fixpoint le_word (bs : list Z) : Z :=
  match bs with
  | [] => 0
  | b :: rest => Z.lor b (Z.shiftl (le_word rest) 8)
  end.

(** Sixteen little-endian words of a 64-byte block. *)
Definition words (block : list Z) : list Z :=
  map (fun i => le_word (firstn 4 (skipn (4 * i) block))) (seq 0 16).

Definition step (M : list Z) (r : regs) (i : nat) : regs :=
  let '(Regs a b c d) := r in
  let zi := Z.of_nat i in
  let '(f, g) :=
    if (i <? 16)%nat then (Z.lor (Z.land b c) (Z.land (not32 b) d), zi)
    else if (i <? 32)%nat then
      (Z.lor (Z.land d b) (Z.land (not32 d) c), (5 * zi + 1) mod 16)
    else if (i <? 48)%nat then (Z.lxor (Z.lxor b c) d, (3 * zi + 5) mod 16)
    else (Z.lxor c (Z.lor b (not32 d)), (7 * zi) mod 16) in
  let f' := add32 (add32 (add32 f a) (nth i K 0)) (nth (Z.to_nat g) M 0) in
  Regs d (add32 b (rotl32 f' (nth i S 0))) b c.

Definition compress (r : regs) (block : list Z) : regs :=
  let r' := fold_left (step (words block)) (seq 0 64) r in
  Regs (add32 (rA r) (rA r')) (add32 (rB r) (rB r'))
       (add32 (rC r) (rC r')) (add32 (rD r) (rD r')).

Fixpoint blocks (n : nat) (bs : list Z) : list (list Z) :=
  match n with
  | O => []
  | Datatypes.S n' => firstn 64 bs :: blocks n' (skipn 64 bs)
  end.

Definition digest (msg : list Z) : list Z :=
  let p := pad msg in
  let r := fold_left compress (blocks (length p / 64) p) init in
  le_bytes 4 (rA r) ++ le_bytes 4 (rB r) ++ le_bytes 4 (rC r)
    ++ le_bytes 4 (rD r).

Definition hex_digit (z : Z) : ascii :=
  ascii_of_N (Z.to_N (if z <? 10 then 48 + z else 87 + z)).

Fixpoint hex (bs : list Z) : string :=
  match bs with
  | [] => EmptyString
  | b :: rest =>
      String (hex_digit (Z.shiftr b 4))
        (String (hex_digit (Z.land b 15)) (hex rest))
  end.

(** [hashlib.md5(msg).hexdigest()]. *)
Definition hexdigest (msg : list Z) : string := hex (digest msg).

End Md5.

(** ** Module-level state *)

(** A dict with string keys and scalar values: [error_details], a record of
    the ledger, [session_info], an [element_info]. *)
Abbreviation dict := (gmap string pyval).

(** [d.get(k, dflt)]. *)
Definition dict_get (d : dict) (k : string) (dflt : pyval) : pyval :=
  default dflt (d !! k).

(** [d.update(other)]: the keys of [other] win. *)
Definition dict_update (d other : dict) : dict := other ∪ d.

(** The content of [error.json] once parsed. *)
Record ledger : Type := Ledger {
  session_info : dict;
  errors : list dict
}.

(** One entry of the [navigation_errors] buffer.  Its ['details'] is the
    very dict the listener goes on to use and the flush rewrites in place:
    the entry holds the address of that dict among the [objects] of the
    world. *)
Record nav_error : Type := NavError {
  ne_error : pystr;
  ne_details : nat;
  ne_timestamp : pystr
}.

(** A listener suspended in [get_code_context_from_location]: the address of
    its [error_details], the [line_number] it passed when it awaits the fetch
    of the source ([None] when it makes no fetch), the [err] it will hand to
    [handle_error] and the error type, [None] for the custom listener, which
    reads the type from the details once it is resumed. *)
Record suspended : Type := Suspended {
  s_details : nat;
  s_line_number : option pyval;
  s_err : pyval;
  s_type : option pyval
}.

(** The five methods of the recovery ladder of [handle_navigation]. *)
Inductive method : Type := First | Second | Third | Fourth | Fifth.

#[global] Instance method_eq_dec : EqDecision method.
Proof. solve_decision. Defined.

(** A coroutine of the script that the event loop holds at an [await]: a
    listener in its fetch, [handle_navigation] in the wait for the load, in
    the [goto] or [reload] of a method, or in the sleep after a method that
    returned. *)
Inductive task : Type :=
| AwaitingFetch (s : suspended)
| AwaitingLoad (new_url : pystr) (element_info : option dict)
| AwaitingMethod (m : method)
| AwaitingSleep
| Finished.

(** The globals of the script, the file behind [error_json_file], the URL
    the page shows, the [error_details] dicts that are shared between a
    listener and the buffer, and the suspended coroutines.
    [error_json_file = None] stands for a file that is missing or does not
    parse ([FileNotFoundError], [json.JSONDecodeError]).  Values survive
    [json.dump] followed by [json.load] unchanged. *)
Record world : Type := World {
  seen_errors : gset string;
  error_json_file : option ledger;
  navigation_in_progress : bool;
  navigation_errors : list nav_error;
  current_element_info : option dict;
  page_url : pystr;
  objects : list dict;
  tasks : list task
}.

Definition set_seen_errors (s : gset string) (w : world) : world :=
  World s (error_json_file w) (navigation_in_progress w)
        (navigation_errors w) (current_element_info w) (page_url w)
        (objects w) (tasks w).

Definition set_error_json_file (f : option ledger) (w : world) : world :=
  World (seen_errors w) f (navigation_in_progress w)
        (navigation_errors w) (current_element_info w) (page_url w)
        (objects w) (tasks w).

Definition set_navigation_in_progress (b : bool) (w : world) : world :=
  World (seen_errors w) (error_json_file w) b
        (navigation_errors w) (current_element_info w) (page_url w)
        (objects w) (tasks w).

Definition set_navigation_errors (l : list nav_error) (w : world) : world :=
  World (seen_errors w) (error_json_file w) (navigation_in_progress w)
        l (current_element_info w) (page_url w) (objects w) (tasks w).

Definition set_page_url (u : pystr) (w : world) : world :=
  World (seen_errors w) (error_json_file w) (navigation_in_progress w)
        (navigation_errors w) (current_element_info w) u
        (objects w) (tasks w).

Definition set_objects (o : list dict) (w : world) : world :=
  World (seen_errors w) (error_json_file w) (navigation_in_progress w)
        (navigation_errors w) (current_element_info w) (page_url w)
        o (tasks w).

Definition set_tasks (k : list task) (w : world) : world :=
  World (seen_errors w) (error_json_file w) (navigation_in_progress w)
        (navigation_errors w) (current_element_info w) (page_url w)
        (objects w) k.

Definition BASE_URL : pystr :=
  lit "https://add-cwv-check--bbird--aemsites.aem.page/".

Definition MAX_ACTIONS : nat := 50.

(** The state the module is loaded with, on a page showing [url]. *)
Definition module_start (file : option ledger) (url : pystr) : world :=
  World ∅ file false [] None url [] [].

(** ** Output *)

(** [print(text)] raises [UnicodeEncodeError] when [text] holds a lone
    surrogate: [sys.stdout] is a UTF-8 text stream with the [strict] error
    handler.  The prints modelled are those of text that comes with an event;
    the text of an exception ([{e}]) prints. *)
Definition printable (text : pystr) : bool :=
  match encode_utf8 text with
  | Some _ => true
  | None => false
  end.

(** A value [json.dump(..., ensure_ascii=False)] can write to a file opened
    with [encoding='utf-8']. *)
Definition encodable (v : pyval) : bool :=
  match v with
  | PStr s => printable s
  | _ => true
  end.

Definition dumpable_dict (d : dict) : bool :=
  bool_decide (map_Forall (fun _ v => encodable v = true) d).

Definition dumpable (data : ledger) : bool :=
  dumpable_dict (session_info data) && forallb dumpable_dict (errors data).

(** [with open(error_json_file, 'w', encoding='utf-8') as f:
    json.dump(error_data, f, indent=2, ensure_ascii=False)]: what the file
    holds afterwards.  [open] has truncated the file; when a string of the
    data cannot be encoded the write raises part way and the file is left
    with a text that does not parse. *)
Definition json_dump (data : ledger) : option ledger :=
  if dumpable data then Some data else None.

(** ** The error pipeline *)

(** [initialize_error_json()]; [now] is what [datetime.now().isoformat()]
    reads. *)
Definition initialize_error_json (now : pystr) (w : world) : world :=
  let error_data :=
    Ledger (<["timestamp" := PStr now]>
            (<["base_url" := PStr BASE_URL]>
             (<["script_name" := PStr (lit "js_error_capture.py")]>
              (<["execution_start" := PStr now]> ∅))))
           [] in
  set_error_json_file (json_dump error_data) w.

(** The structure [save_error_to_json] falls back to when the file cannot
    be loaded. *)
Definition fresh_error_data (now : pystr) : ledger :=
  Ledger (<["timestamp" := PStr now]>
          (<["base_url" := PStr BASE_URL]>
           (<["script_name" := PStr (lit "js_error_capture.py")]> ∅)))
         [].

(** The data [save_error_to_json] writes: the loaded or the fresh structure
    with the record appended and the session info updated. *)
Definition updated_error_data (now : pystr) (error_detail : dict) (w : world)
  : ledger :=
  let error_data :=
    match error_json_file w with
    | Some l => l
    | None => fresh_error_data now
    end in
  let errors' := errors error_data ++ [error_detail] in
  let info' :=
    <["total_errors" := PInt (Z.of_nat (length errors'))]>
      (<["last_updated" := PStr now]> (session_info error_data)) in
  Ledger info' errors'.

(** [save_error_to_json(error_detail)].  The body is one [try]: when the
    write raises, the call ends and the truncated file stays. *)
Definition save_error_to_json (now : pystr) (error_detail : dict) (w : world)
  : world :=
  set_error_json_file (json_dump (updated_error_data now error_detail w)) w.

(** ["|".join(parts)] raises [TypeError] unless every part is a [str]. *)
Definition join_values (sep : pystr) (parts : list pyval) : option pystr :=
  strs ← mapM (fun v => match v with PStr s => Some s | _ => None end) parts;
  Some (join sep strs).

(** The four parts [generate_error_signature] hashes.  [error_type] is a
    parameter of the source function and is not read. *)
Definition signature_parts (error_message : pystr) (filename lineno colno : pyval)
  : list pyval :=
  [ PStr (if truthy (PStr error_message) then slice_to 200 error_message else []);
    (if truthy filename then filename else PStr []);
    PStr (if truthy lineno then str lineno else []);
    PStr (if truthy colno then str colno else []) ].

(** [generate_error_signature(error_type, error_message, filename, lineno,
    colno)]; [None] when the join or the encoding raises. *)
Definition generate_error_signature (error_type : pyval) (error_message : pystr)
    (filename lineno colno : pyval) : option string :=
  signature_string ←
    join_values (lit "|") (signature_parts error_message filename lineno colno);
  bytes ← encode_utf8 signature_string;
  Some (Md5.hexdigest bytes).

(** [error_details.get(k, 'Unknown') if error_details else 'Unknown']. *)
Definition details_or_unknown (error_details : option dict) (k : string) : pyval :=
  match error_details with
  | Some d => if bool_decide (d = ∅) then PStr (lit "Unknown")
              else dict_get d k (PStr (lit "Unknown"))
  | None => PStr (lit "Unknown")
  end.

(** The scan of the ledger in [handle_error]: a record with the same message,
    filename and line number. *)
Definition same_triple (error_message : pystr) (filename_info lineno_info : pyval)
    (existing_error : dict) : bool :=
  Py.eqb (dict_get existing_error "error_message" (PStr [])) (PStr error_message)
  && Py.eqb (dict_get existing_error "filename" (PStr [])) filename_info
  && Py.eqb (dict_get existing_error "line_number" (PStr [])) lineno_info.

Definition found_in_json (w : world) (error_message : pystr)
    (filename_info lineno_info : pyval) : bool :=
  match error_json_file w with
  | Some existing_data =>
      existsb (same_triple error_message filename_info lineno_info)
              (errors existing_data)
  | None => false
  end.

(** The record [handle_error] builds before saving. *)
Definition error_detail_of (now : pystr) (url : pystr) (error_signature : string)
    (error_type : pyval) (error_message : pystr)
    (filename_info lineno_info colno_info : pyval) (error_details : option dict)
  : dict :=
  let error_detail : dict :=
    <["error_signature" := PStr (lit error_signature)]>
    (<["error_type" := error_type]>
    (<["error_message" := PStr error_message]>
    (<["timestamp" := PStr now]>
    (<["url" := PStr url]>
    (<["filename" := filename_info]>
    (<["line_number" := lineno_info]>
    (<["column_number" := colno_info]>
    (<["error_log_file" := PNone]> ∅)))))))) in
  match error_details with
  | Some d => dict_update error_detail d
  | None => error_detail
  end.

(** [handle_error(page, filename, err, error_type, error_details)].  The
    screenshot name passed as [filename] is never read.  The body is one
    [try]: an exception raised inside it ends the call with the state reached
    so far.  The coroutine has no [await] of its own, so a call runs to its
    end before any other coroutine runs.

    A duplicate found in the file is reported with a [print] of [error_type]
    inside the inner [try]; when that print raises, the inner [except]
    catches it and the call goes on as if nothing had been found.  After the
    signature is added, [error_type.upper()] raises when the type is not a
    [str], and the print of the type and of [err] raises when either cannot
    be printed: the call then ends with the signature added and nothing
    saved. *)
Definition handle_error (now : pystr) (err : pyval) (error_type : pyval)
    (error_details : option dict) (w : world) : world :=
  let error_message := str err in
  let filename_info := details_or_unknown error_details "filename" in
  let lineno_info := details_or_unknown error_details "lineno" in
  let colno_info := details_or_unknown error_details "colno" in
  match generate_error_signature error_type error_message
                                 filename_info lineno_info colno_info with
  | None => w
  | Some error_signature =>
      if bool_decide (error_signature ∈ seen_errors w) then w
      else if found_in_json w error_message filename_info lineno_info
              && printable (str error_type) then w
      else
        let w1 := set_seen_errors ({[error_signature]} ∪ seen_errors w) w in
        match error_type with
        | PStr kind =>
            if printable kind && printable error_message
            then save_error_to_json now
                   (error_detail_of now (page_url w) error_signature error_type
                      error_message filename_info lineno_info colno_info
                      error_details)
                   w1
            else w1
        | _ => w1
        end
  end.

(** ** Code context *)

(** The lines [extract_code_context] renders, before they are concatenated:
    the window from index [line_number - 31] to [line_number + 29], both
    clipped to the file, each line behind its marker. *)
Definition context_window (lines : list pystr) (line_number : Z) : list Z :=
  let start_line := Z.max 0 (line_number - 31) in
  let end_line := Z.min (Z.of_nat (length lines) - 1) (line_number + 29) in
  seqZ start_line (end_line + 1 - start_line).

Definition render_line (lines : list pystr) (line_number : Z) (i : Z) : pystr :=
  let line_content :=
    if i <? Z.of_nat (length lines) then nth (Z.to_nat i) lines [] else [] in
  let is_error_line := i =? line_number - 1 in
  let marker := if is_error_line then lit ">>> " else lit "    " in
  marker ++ line_content ++ [10%N].

(** [extract_code_context(source_code, filename, line_number)]; [None] when
    the arithmetic on [line_number] raises (a line number that is a [str]).
    The two prints show the filename and the line number that
    [get_code_context_from_location] has printed before. *)
Definition extract_code_context (source_code : pystr) (line_number : pyval)
  : option pystr :=
  n ← as_number line_number;
  let lines := split_lines source_code in
  let context_string :=
    fold_left (fun acc i => acc ++ render_line lines n i)
              (context_window lines n) [] in
  Some (strip context_string).

(** [get_code_context_from_location] from its [await] on: [fetched] is what
    the page's [fetch] of [file_url] gave, [None] for a failed fetch or a
    failed [page.evaluate]. *)
Definition code_context_of (fetched : option pystr) (line_number : pyval)
  : option pystr :=
  match fetched with
  | Some source_code =>
      if truthy (PStr source_code)
      then extract_code_context source_code line_number
      else None
  | None => None
  end.

(** [get_code_context_from_location(page, file_url, line_number)]: the
    prints of [file_url] and [line_number], then the fetch.  When a print
    raises, the function returns [None] without awaiting anything. *)
Definition get_code_context_from_location (file_url line_number : pyval)
    (fetched : option pystr) : option pystr :=
  if printable (str file_url) && printable (str line_number)
  then code_context_of fetched line_number
  else None.

(** The test every listener makes before it fetches:
    [error_details.get('filename') and error_details.get('lineno') and
    error_details.get('filename') != 'Unknown']. *)
Definition needs_code_context (error_details : dict) : bool :=
  truthy (dict_get error_details "filename" PNone)
  && truthy (dict_get error_details "lineno" PNone)
  && negb (Py.eqb (dict_get error_details "filename" PNone)
                  (PStr (lit "Unknown"))).

(** [if code_context: error_details['code_context'] = code_context]. *)
Definition with_code_context (code_context : option pystr)
    (error_details : dict) : dict :=
  match code_context with
  | Some code_context =>
      if truthy (PStr code_context)
      then <["code_context" := PStr code_context]> error_details
      else error_details
  | None => error_details
  end.

(** The block every listener runs before [handle_error]: fetch the code
    context when filename and line number are known. *)
Definition add_code_context (fetched : option pystr) (error_details : dict)
  : dict :=
  if needs_code_context error_details
  then with_code_context
         (get_code_context_from_location
            (dict_get error_details "filename" PNone)
            (dict_get error_details "lineno" PNone) fetched)
         error_details
  else error_details.

(** The [line_number] a listener passes when its block reaches the [await]
    of the fetch; [None] when the block ends without awaiting. *)
Definition fetch_request (error_details : dict) : option pyval :=
  if needs_code_context error_details
     && printable (str (dict_get error_details "filename" PNone))
     && printable (str (dict_get error_details "lineno" PNone))
  then Some (dict_get error_details "lineno" PNone)
  else None.

(** ** Listeners *)

(** The groups of a match of one of the location patterns, the digit groups
    already through [int].  What [re.search] finds is given with the event. *)
Record groups : Type := Groups {
  g_file : pystr;
  g_line : Z;
  g_col : option Z
}.

Definition set_location (g : groups) (error_details : dict) : dict :=
  let d := <["lineno" := PInt (g_line g)]>
             (<["filename" := PStr (g_file g)]> error_details) in
  match g_col g with
  | Some c => <["colno" := PInt c]> d
  | None => d
  end.

(** What a coroutine reads besides its event when it runs: the clock and,
    when it comes back from the fetch of the source file, the answer of the
    page. *)
Record ambient : Type := Ambient {
  now : pystr;
  fetched_source : option pystr
}.

(** The block of [on_page_error] and [on_console] that runs while a
    navigation is handled: tag the details and append to the buffer an entry
    that holds the same dict. *)
Definition tag_navigation (w : world) (error_details : dict) : dict :=
  if navigation_in_progress w
  then <["navigation_url" := PStr (page_url w)]>
         (<["navigation_context" := PBool true]> error_details)
  else error_details.

Definition buffer_navigation (a : ambient) (error : pystr) (address : nat)
    (w : world) : world :=
  if navigation_in_progress w
  then set_navigation_errors
         (navigation_errors w ++ [NavError error address (now a)]) w
  else w.

(** A listener from the [await] of its fetch to its end: the code context is
    set in the details, which may have been rewritten meanwhile by a flush,
    and the details go to [handle_error]. *)
Definition listener_resumes (a : ambient) (s : suspended) (w : world) : world :=
  let error_details := default ∅ (objects w !! s_details s) in
  let error_details :=
    match s_line_number s with
    | Some line_number =>
        with_code_context (code_context_of (fetched_source a) line_number)
                          error_details
    | None => error_details
    end in
  let w := set_objects (<[s_details s := error_details]> (objects w)) w in
  let error_type :=
    match s_type s with
    | Some error_type => error_type
    | None => dict_get error_details "type" (PStr (lit "custom_error"))
    end in
  handle_error (now a) (s_err s) error_type (Some error_details) w.

(** A listener that runs from its start to its end with no other coroutine
    in between: the fetch, if there is one, is answered at once. *)
Definition run_on (a : ambient) (r : world * option suspended) : world :=
  match r with
  | (w, Some s) => listener_resumes a s w
  | (w, None) => w
  end.

(** A [pageerror] event: [str(err)], the [message] and [stack] attributes when
    the object has them, and the first match of the location pattern in the
    stack. *)
Record page_error : Type := PageError {
  pe_str : pystr;
  pe_message : option pyval;
  pe_stack : option pyval;
  pe_stack_match : option groups
}.

Definition stack_details (message stack : option pyval) (m : option groups)
  : dict :=
  let d0 : dict :=
    match message with Some v => <["message" := v]> ∅ | None => ∅ end in
  let d1 : dict :=
    match stack with
    | Some v => <["stackTrace" := v]> (<["stack" := v]> d0)
    | None => d0
    end in
  match stack, m with
  | Some v, Some g => if truthy v then set_location g d1 else d1
  | _, _ => d1
  end.

(** [on_page_error(err)] up to its [await]. *)
Definition page_error_arrives (a : ambient) (err : page_error) (w : world)
  : world * option suspended :=
  let error_details :=
    stack_details (pe_message err) (pe_stack err) (pe_stack_match err) in
  let error_details := tag_navigation w error_details in
  let address := length (objects w) in
  let w := set_objects (objects w ++ [error_details]) w in
  let w := buffer_navigation a (pe_str err) address w in
  (w, Some (Suspended address (fetch_request error_details)
                      (PStr (pe_str err)) (Some (PStr (lit "page_error"))))).

(** [on_page_error(err)]. *)
Definition on_page_error (a : ambient) (err : page_error) (w : world) : world :=
  run_on a (page_error_arrives a err w).

(** A [console] event: [msg.type], [msg.text], what
    [msg.location() if callable(getattr(msg, "location", None)) else None]
    gives and, for the fallback, the first match of the general pattern and
    of each of the four [location_patterns] in [msg.text]. *)
Record console_message : Type := ConsoleMessage {
  cm_type : pystr;
  cm_text : pystr;
  cm_location : option dict;
  cm_text_match : option groups;
  cm_pattern_matches : list (option groups)
}.

Definition location_is_set (error_details : dict) : bool :=
  truthy (dict_get error_details "filename" PNone).

(** The loop over [location_patterns]: the first match is taken, and nothing
    is taken once a filename is known. *)
Fixpoint scan_location_patterns (matches : list (option groups))
    (error_details : dict) : dict :=
  match matches with
  | [] => error_details
  | Some g :: rest =>
      if location_is_set error_details
      then scan_location_patterns rest error_details
      else set_location g error_details
  | None :: rest => scan_location_patterns rest error_details
  end.

Definition console_details (msg : console_message) : dict :=
  let loc_given :=
    match cm_location msg with
    | Some loc => negb (bool_decide (loc = ∅))
    | None => false
    end in
  let d0 : dict :=
    match cm_location msg with
    | Some loc =>
        if loc_given then
          <["colno" := dict_get loc "columnNumber" (PStr (lit "Unknown"))]>
          (<["lineno" := dict_get loc "lineNumber" (PStr (lit "Unknown"))]>
          (<["filename" := dict_get loc "url" (PStr (lit "Unknown"))]> ∅))
        else ∅
    | None => ∅
    end in
  if negb loc_given && truthy (PStr (cm_text msg)) then
    let d1 :=
      match cm_text_match msg with
      | Some g => if location_is_set d0 then d0 else set_location g d0
      | None => d0
      end in
    scan_location_patterns (cm_pattern_matches msg) d1
  else d0.

(** The print of the location in [on_console], made when [loc] is given:
    [{loc.get('url')}:{loc.get('lineNumber')}:{loc.get('columnNumber')}].
    It is outside any [try]: when it raises, the listener ends there. *)
Definition location_prints (msg : console_message) : bool :=
  match cm_location msg with
  | Some loc =>
      if bool_decide (loc = ∅) then true
      else printable (str (dict_get loc "url" PNone))
           && printable (str (dict_get loc "lineNumber" PNone))
           && printable (str (dict_get loc "columnNumber" PNone))
  | None => true
  end.

(** [on_console(msg)] up to its [await]. *)
Definition console_arrives (a : ambient) (msg : console_message) (w : world)
  : world * option suspended :=
  if bool_decide (cm_type msg = lit "error") && location_prints msg then
    let error_details := console_details msg in
    let error_details := tag_navigation w error_details in
    let address := length (objects w) in
    let w := set_objects (objects w ++ [error_details]) w in
    let w := buffer_navigation a (cm_text msg) address w in
    (w, Some (Suspended address (fetch_request error_details)
                        (PStr (cm_text msg))
                        (Some (PStr (lit "console_error")))))
  else (w, None).

(** [on_console(msg)]. *)
Definition on_console (a : ambient) (msg : console_message) (w : world) : world :=
  run_on a (console_arrives a msg w).

(** An [unhandledrejection] event; [rj_reason = None] is an event without a
    [reason] attribute, on which [str(event.reason)] raises out of the
    listener. *)
Record reason : Type := Reason {
  rs_str : pystr;
  rs_message : option pyval;
  rs_stack : option pyval;
  rs_stack_match : option groups
}.

Record rejection : Type := Rejection { rj_reason : option reason }.

(** [on_promise_rejection(event)] up to its [await]. *)
Definition rejection_arrives (a : ambient) (event : rejection) (w : world)
  : world * option suspended :=
  match rj_reason event with
  | Some r =>
      let error_details :=
        stack_details (rs_message r) (rs_stack r) (rs_stack_match r) in
      let address := length (objects w) in
      let w := set_objects (objects w ++ [error_details]) w in
      (w, Some (Suspended address (fetch_request error_details)
                          (PStr (rs_str r))
                          (Some (PStr (lit "promise_rejection")))))
  | None => (w, None)
  end.

(** [on_promise_rejection(event)]. *)
Definition on_promise_rejection (a : ambient) (event : rejection) (w : world)
  : world :=
  run_on a (rejection_arrives a event w).

(** What the page hands to [logError]: a dict, a [str] with the answer of
    [json.loads] on it, or anything else; [ce_str] is [str(event_data)]. *)
Inductive json_answer : Type :=
| JsonDict (d : dict)
| JsonOther
| JsonError.

Inductive custom_payload : Type :=
| CustomDict (d : dict)
| CustomText (s : pystr) (parsed : json_answer)
| CustomOther.

Record custom_event : Type := CustomEvent {
  ce_payload : custom_payload;
  ce_str : pystr
}.

(** The dict [on_custom_error] works on; a JSON text that is not an object
    has no [get], the [AttributeError] is caught by the listener's own
    [try]. *)
Definition custom_details (event_data : custom_event) : option dict :=
  match ce_payload event_data with
  | CustomDict d => Some d
  | CustomText s (JsonDict d) => Some d
  | CustomText s JsonOther => None
  | CustomText s JsonError => Some (<["message" := PStr s]> ∅)
  | CustomOther => Some ∅
  end.

(** [on_custom_error(event_data)] up to its [await]. *)
Definition custom_arrives (a : ambient) (event_data : custom_event) (w : world)
  : world * option suspended :=
  match custom_details event_data with
  | Some error_details =>
      let error_message :=
        dict_get error_details "message"
          (dict_get error_details "reason" (PStr (ce_str event_data))) in
      let address := length (objects w) in
      let w := set_objects (objects w ++ [error_details]) w in
      (w, Some (Suspended address (fetch_request error_details)
                          error_message None))
  | None => (w, None)
  end.

(** [on_custom_error(event_data)]. *)
Definition on_custom_error (a : ambient) (event_data : custom_event) (w : world)
  : world :=
  run_on a (custom_arrives a event_data w).

(** A fault event as the driver delivers it to one of the four listeners. *)
Inductive raw_event : Type :=
| OnPageError (err : page_error)
| OnConsole (msg : console_message)
| OnPromiseRejection (event : rejection)
| OnCustomError (event_data : custom_event).

(** The listener of an event up to its [await]. *)
Definition arrives (a : ambient) (e : raw_event) (w : world)
  : world * option suspended :=
  match e with
  | OnPageError err => page_error_arrives a err w
  | OnConsole msg => console_arrives a msg w
  | OnPromiseRejection event => rejection_arrives a event w
  | OnCustomError event_data => custom_arrives a event_data w
  end.

(** The listener of an event, run to its end with nothing in between. *)
Definition deliver (ae : ambient * raw_event) (w : world) : world :=
  match ae with
  | (a, OnPageError err) => on_page_error a err w
  | (a, OnConsole msg) => on_console a msg w
  | (a, OnPromiseRejection event) => on_promise_rejection a event w
  | (a, OnCustomError event_data) => on_custom_error a event_data w
  end.

(** ** Navigation guard *)

(** What [page.goto] or [page.reload] does when awaited: it returns, or it
    raises and leaves the page at some URL.  A [goto] that returns has
    committed the URL it was given, a [reload] that returns keeps the URL. *)
Inductive outcome : Type :=
| Returns
| Raises (left_at : pystr).

Definition original_url : pystr := BASE_URL.

Definition goto_original_url (o : outcome) (w : world) : bool * world :=
  match o with
  | Returns => (true, set_page_url original_url w)
  | Raises u => (false, set_page_url u w)
  end.

Definition reload (o : outcome) (w : world) : bool * world :=
  match o with
  | Returns => (true, w)
  | Raises u => (false, set_page_url u w)
  end.

(** [element_info.get('text', 'Unknown') if element_info else 'Unknown']. *)
Definition causing_text (element_info : option dict) : pyval :=
  match element_info with
  | Some d => if bool_decide (d = ∅) then PStr (lit "Unknown")
              else dict_get d "text" (PStr (lit "Unknown"))
  | None => PStr (lit "Unknown")
  end.

(** The two prints [handle_navigation] starts with, of [new_url] and of the
    text of the element when [element_info] is given.  They are outside any
    [try]: when one raises, the coroutine ends there. *)
Definition announces (new_url : pystr) (element_info : option dict) : bool :=
  printable new_url
  && match element_info with
     | Some d => if bool_decide (d = ∅) then true
                 else printable (str (dict_get d "text" (PStr (lit "Unknown"))))
     | None => true
     end.

(** [handle_navigation(new_url, element_info)] up to its first [await]; with
    the world, the [element_info] the coroutine goes on with, [None] when it
    has ended. *)
Definition navigation_starts (new_url : pystr) (element_info : option dict)
    (w : world) : world * option (option dict) :=
  if bool_decide (new_url = original_url) then (w, None)
  else
    let element_info :=
      match element_info with
      | None => current_element_info w
      | Some _ => element_info
      end in
    if announces new_url element_info
    then (set_navigation_errors [] (set_navigation_in_progress true w),
          Some element_info)
    else (w, None).

(** The details of a buffered entry as the flush rewrites them, in place. *)
Definition flushed_details (new_url : pystr) (element_info : option dict)
    (error_details : dict) : dict :=
  <["element_that_caused_navigation" := causing_text element_info]>
    (<["navigation_url" := PStr new_url]> error_details).

(** One round of the loop of the flush. *)
Definition flush_entry (t : pystr) (new_url : pystr)
    (element_info : option dict) (w : world) (nav : nav_error) : world :=
  let error_details :=
    flushed_details new_url element_info
      (default ∅ (objects w !! ne_details nav)) in
  let w := set_objects (<[ne_details nav := error_details]> (objects w)) w in
  handle_error t (PStr (ne_error nav)) (PStr (lit "navigation_error"))
               (Some error_details) w.

(** The flush: every entry of the buffer goes to [handle_error] as a
    [navigation_error]. *)
Definition flush_navigation_errors (t : pystr) (new_url : pystr)
    (element_info : option dict) (w : world) : world :=
  fold_left (flush_entry t new_url element_info) (navigation_errors w) w.

(** What [await]ing a method does to the page: [page.reload] for the second,
    [page.goto(original_url, ...)] for the others. *)
Definition awaited (m : method) (o : outcome) (w : world) : bool * world :=
  match m with
  | Second => reload o w
  | _ => goto_original_url o w
  end.

Definition set_task (i : nat) (k : task) (w : world) : world :=
  set_tasks (<[i := k]> (tasks w)) w.

(** What the event loop runs next: a listener from its start to its end, a
    listener up to its [await], a suspended listener from its [await] on,
    [handle_navigation] up to its first [await], a suspended
    [handle_navigation] from its [await] to the next one or to its end.  A
    step names the suspended coroutine by its place among the [tasks]. *)
Inductive session_step : Type :=
| Fault (a : ambient) (e : raw_event)
| Arrives (a : ambient) (e : raw_event)
| Completes (i : nat) (a : ambient)
| Navigated (new_url : pystr) (element_info : option dict)
| Proceeds (i : nat) (t : pystr) (o : outcome).

Section UrlParse.

(** [urlparse(url).netloc], [None] when [urlparse] raises. *)
Variable urlparse_netloc : pystr -> option pystr.

(** [extract_domain(url)], also [_extract_domain]. *)
Definition extract_domain (url : pystr) : pystr :=
  default url (urlparse_netloc url).

(** Whether a method is tried once the ones before it have failed: the
    second only [if current_domain == target_domain]. *)
Definition applicable (m : method) (w : world) : bool :=
  match m with
  | Second => bool_decide (extract_domain (page_url w)
                           = extract_domain original_url)
  | _ => true
  end.

(** The method [handle_navigation] awaits next after method [m] raised. *)
Definition next_method (m : method) (w : world) : option method :=
  match m with
  | First => if applicable Second w then Some Second else Some Third
  | Second => Some Third
  | Third => Some Fourth
  | Fourth => Some Fifth
  | Fifth => None
  end.

(** A suspended [handle_navigation] from its [await] on: from the wait for
    the load through the flush to the [goto] of the first method; from a
    method to the sleep that follows when it returned, to the next method
    when it raised, to the end when the last one raised; from the sleep to
    the end.  The end is [navigation_in_progress = False]. *)
Definition navigation_proceeds (i : nat) (t : pystr) (o : outcome) (w : world)
  : world :=
  match tasks w !! i with
  | Some (AwaitingLoad new_url element_info) =>
      set_task i (AwaitingMethod First)
               (flush_navigation_errors t new_url element_info w)
  | Some (AwaitingMethod m) =>
      let '(return_success, w) := awaited m o w in
      if return_success then set_task i AwaitingSleep w
      else match next_method m w with
           | Some m' => set_task i (AwaitingMethod m') w
           | None => set_navigation_in_progress false (set_task i Finished w)
           end
  | Some AwaitingSleep =>
      set_navigation_in_progress false (set_task i Finished w)
  | _ => w
  end.

Definition step (w : world) (s : session_step) : world :=
  match s with
  | Fault a e => deliver (a, e) w
  | Arrives a e =>
      match arrives a e w with
      | (w, Some s) =>
          match s_line_number s with
          | Some _ => set_tasks (tasks w ++ [AwaitingFetch s]) w
          | None => listener_resumes a s w
          end
      | (w, None) => w
      end
  | Completes i a =>
      match tasks w !! i with
      | Some (AwaitingFetch s) => listener_resumes a s (set_task i Finished w)
      | _ => w
      end
  | Navigated new_url element_info =>
      match navigation_starts new_url element_info w with
      | (w, Some element_info) =>
          set_tasks (tasks w ++ [AwaitingLoad new_url element_info]) w
      | (w, None) => w
      end
  | Proceeds i t o => navigation_proceeds i t o w
  end.

(** A session after its start: the steps the event loop runs, in order. *)
Definition session_run (steps : list session_step) (w : world) : world :=
  fold_left step steps w.

(** What happens around one call of [handle_navigation], seen from inside
    it: the steps the event loop runs while the call waits for the new page
    to load, the clock at the flush, the outcome of each of the five methods
    should it be tried, the steps that run while a method is awaited and
    those that run during the sleep after the method that returned. *)
Record navigation_env : Type := NavigationEnv {
  while_loading : list session_step;
  flush_now : pystr;
  method1 : outcome;
  method2 : outcome;
  method3 : outcome;
  method4 : outcome;
  method5 : outcome;
  while_awaiting : method -> list session_step;
  while_sleeping : list session_step
}.

Definition outcome_of (env : navigation_env) (m : method) : outcome :=
  match m with
  | First => method1 env
  | Second => method2 env
  | Third => method3 env
  | Fourth => method4 env
  | Fifth => method5 env
  end.

(** One block [if not return_success: try: await ...; await
    asyncio.sleep(...); return_success = True except: ...]. *)
Definition try_method (env : navigation_env) (acc : bool * world) (m : method)
  : bool * world :=
  let '(return_success, w) := acc in
  if return_success then acc
  else if applicable m w then
    let w := session_run (while_awaiting env m) w in
    let '(return_success, w) := awaited m (outcome_of env m) w in
    (return_success,
     if return_success then session_run (while_sleeping env) w else w)
  else acc.

(** The five methods, tried until one sets [return_success]. *)
Definition return_to_original (env : navigation_env) (w : world)
  : bool * world :=
  fold_left (try_method env) [First; Second; Third; Fourth; Fifth] (false, w).

(** [handle_navigation(new_url, element_info)] from its start to its end,
    with the steps of the other coroutines at its [await]s. *)
Definition handle_navigation (env : navigation_env) (new_url : pystr)
    (element_info : option dict) (w : world) : world :=
  match navigation_starts new_url element_info w with
  | (w, Some element_info) =>
      let w := session_run (while_loading env) w in
      let w := flush_navigation_errors (flush_now env) new_url element_info w in
      let '(_, w) := return_to_original env w in
      set_navigation_in_progress false w
  | (w, None) => w
  end.

End UrlParse.

(** ** Phase 1: [click_all_links_and_buttons] *)

(** An element handle with what the driver answers when the sweep asks:
    [None] is a call that raises, [h_scroll] tells whether
    [scroll_into_view_if_needed] returns.  Each question is asked at most
    once per handle, so one answer per question describes any page. *)
Record handle : Type := Handle {
  h_id : Z;
  h_visible : option bool;
  h_tag : option pystr;
  h_elem_id : option pystr;
  h_class : option pystr;
  h_text : option pystr;
  h_href : option pystr;
  h_dom_path : option pystr;
  h_target : option pystr;
  h_scroll : bool;
  h_enabled : option bool
}.

(** The [element_info] dict of the sweep. *)
Record element_info : Type := ElementInfo {
  ei_element : handle;
  ei_selector : pystr;
  ei_tag_name : pystr;
  ei_id : pystr;
  ei_class : pystr;
  ei_text : pystr;
  ei_href : option pystr;
  ei_is_external : bool
}.

Definition clickable_selectors : list pystr :=
  map lit
    [ "a[href]"; "button"; "input[type='submit']"; "input[type='button']";
      "[role='button']"; "[onclick]"; "[data-action]"; "[data-toggle]";
      ".btn"; ".button"; ".clickable"; ".interactive"; ".nav-link";
      "[class*='btn']"; "[class*='button']"; "[class*='click']";
      "[class*='nav']"; "[class*='menu']"; "[class*='tab']";
      "[data-testid]"; "[data-cy]"; "[data-qa]"; "[data-target]";
      "[class*='card']"; "[class*='item']"; "[class*='product']";
      "[style*='cursor: pointer']"; "[style*='cursor:pointer']";
      "[class*='hover']"; "[class*='active']"; "[class*='focus']" ]%string.

(** The locals of the method that outlive the discovery loop. *)
Record sweep_locals : Type := SweepLocals {
  all_clickable_elements : list element_info;
  tag_name : option pystr
}.

(** The state of the click loop: the elements [click] was called on, in
    order, the local set [clicked_elements] and the global
    [current_element_info] as the sweep assigns it. *)
Record sweep_state : Type := SweepState {
  click_calls : list element_info;
  clicked_elements : gset pystr;
  last_element_info : option element_info
}.

(** The summary the method returns, with the calls of [click] it made. *)
Record sweep_result : Type := SweepResult {
  total_elements_found : nat;
  successfully_clicked : nat;
  clicks : list element_info
}.

Definition shorten (element_text : pystr) : pystr :=
  if (50 <? length element_text)%nat
  then slice_to 50 element_text ++ lit "..."
  else element_text.

(** [f"element_{id(element)}"], the fallback of [_get_stable_dom_path]. *)
Definition get_stable_dom_path (element : handle) : pystr :=
  match h_dom_path element with
  | Some p => p
  | None => lit "element_" ++ str (PInt (h_id element))
  end.

Definition new_context_targets : list pystr :=
  [lit "_blank"; lit "_new"; lit "_top"].

Section Sweep.

Variable urlparse_netloc : pystr -> option pystr.

(** [_is_external_link(href, target_domain)]. *)
Definition is_external_link (href : pystr) (target_domain : pystr) : bool :=
  if negb (truthy (PStr href)) || negb (truthy (PStr target_domain))
  then false
  else match urlparse_netloc href with
       | Some link_domain =>
           if negb (truthy (PStr link_domain)) then false
           else negb (bool_decide (link_domain = target_domain))
       | None => false
       end.

(** The body of the inner discovery loop for one handle.  The local
    [tag_name] is assigned as soon as the tag is read, whether or not the
    element makes it into the list. *)
Definition discover_element (target_domain : pystr) (selector : pystr)
    (st : sweep_locals) (element : handle) : sweep_locals :=
  match h_visible element with
  | Some true =>
      match h_tag element with
      | Some tag =>
          let st := SweepLocals (all_clickable_elements st) (Some tag) in
          let found :=
            element_id ← h_elem_id element;
            element_class ← h_class element;
            element_text ← h_text element;
            '(href, is_external) ←
              (if bool_decide (tag = lit "a")
               then href ← h_href element;
                    Some (Some href, is_external_link href target_domain)
               else Some (None, false));
            Some (ElementInfo element selector tag element_id element_class
                              (shorten element_text) href is_external) in
          match found with
          | Some info =>
              SweepLocals (all_clickable_elements st ++ [info]) (tag_name st)
          | None => st
          end
      | None => st
      end
  | _ => st
  end.

(** The discovery loops; [query_selector_all] answers [None] when it
    raises. *)
Definition discover_clickable
    (query_selector_all : pystr -> option (list handle))
    (target_domain : pystr) : sweep_locals :=
  fold_left
    (fun st selector =>
       match query_selector_all selector with
       | Some elements =>
           fold_left (discover_element target_domain selector) elements st
       | None => st
       end)
    clickable_selectors (SweepLocals [] None).

(** One round of the click loop, up to and including the call of
    [click].  The test on the link target reads the local [tag_name] of the
    method, which the discovery loop assigned last.  What follows the click
    in the source (the waits, the checks on the URL and the content, the
    return to the original URL, the pause) assigns none of the variables of
    the loop, and an exception there ends the round like any other. *)
Definition click_round (tag_name : option pystr) (res : sweep_state)
    (info : element_info) : sweep_state :=
  let element := ei_element info in
  let element_path := get_stable_dom_path element in
  if bool_decide (element_path ∈ clicked_elements res) then res
  else
    let res :=
      SweepState (click_calls res) ({[element_path]} ∪ clicked_elements res)
                 (last_element_info res) in
    if ei_is_external info then res
    else
      let proceed :=
        if bool_decide (tag_name = Some (lit "a")) then
          match h_target element with
          | Some target_attr =>
              negb (bool_decide (target_attr ∈ new_context_targets))
          | None => false
          end
        else true in
      if negb proceed then res
      else if negb (h_scroll element) then res
      else match h_enabled element with
           | Some false => res
           | _ =>
               SweepState (click_calls res ++ [info]) (clicked_elements res)
                          (Some info)
           end.

(** [click_all_links_and_buttons()] on a page showing [url]. *)
Definition click_all_links_and_buttons
    (query_selector_all : pystr -> option (list handle)) (url : pystr)
  : sweep_result :=
  let target_domain := extract_domain urlparse_netloc url in
  let st := discover_clickable query_selector_all target_domain in
  let res :=
    fold_left (click_round (tag_name st)) (all_clickable_elements st)
              (SweepState [] ∅ None) in
  SweepResult (length (all_clickable_elements st))
              (size (clicked_elements res)) (click_calls res).

End Sweep.

(** ** Phase 2: the suggestion loop of [test_input_fields_specifically] *)

(** A suggestion handle: its identity and whether reading its text and
    clicking it succeed. *)
Record suggestion : Type := Suggestion {
  s_id : Z;
  s_evaluate : bool;
  s_click : bool
}.

(** What happens when the field is cleared and typed into again after a
    click: whether the three calls on the field succeed, and what
    [_find_dropdown_suggestions] then returns. *)
Record reprobe : Type := Reprobe {
  rp_field : bool;
  rp_found : list suggestion
}.

(** The [for j, suggestion in enumerate(dropdown_elements)] loop, from round
    [j] on; [rest] is what the iterator still holds and [len] is
    [len(dropdown_elements)].  The result lists the handles [click] was
    called on.  Each round binds [suggestion] to the next item of
    [dropdown_elements]; the assignment [suggestion = new_dropdown[j + 1]] at
    the end of a round is overwritten by that binding before it is read. *)
Fixpoint suggestion_rounds (len : nat) (reprobes : nat -> reprobe) (j : nat)
    (rest : list suggestion) : list suggestion :=
  match rest with
  | [] => []
  | suggestion :: rest' =>
      if negb (s_evaluate suggestion) then []
      else if negb (s_click suggestion) then [suggestion]
      else if (j <? len - 1)%nat then
        if negb (rp_field (reprobes j)) then [suggestion]
        else
          let new_dropdown := rp_found (reprobes j) in
          if (j + 1 <? length new_dropdown)%nat then
            let suggestion' := nth (j + 1) new_dropdown suggestion in
            suggestion :: suggestion_rounds len reprobes (j + 1)%nat rest'
          else [suggestion]
      else suggestion :: suggestion_rounds len reprobes (j + 1)%nat rest'
  end.

(** Lines 603 to 633: the first probe found [dropdown_elements]. *)
Definition click_suggestions (dropdown_elements : list suggestion)
    (reprobes : nat -> reprobe) : list suggestion :=
  suggestion_rounds (length dropdown_elements) reprobes 0%nat dropdown_elements.

(** ** Phase 3: [recursive_monkey_exploration] *)

(** An element [discover_interactive_elements] returned, with what
    [get_xpath] answers on it ([None] when it raises). *)
Record found : Type := Found {
  f_xpath : option pystr;
  f_interaction_type : pystr
}.

(** What the page and [random.choice] answer at the step that is entered
    with a given [actions_done]. *)
Record exploration_env : Type := ExplorationEnv {
  discover_interactive_elements : nat -> list found;
  random_choice : nat -> nat
}.

Inductive stop : Type :=
| ReachedMaxActions
| NoInteractiveElements
| AllVisited.

(** What an exploration leaves: the global [visited_selectors], the counter
    [actions_performed], the calls of [intelligent_interaction] in order and
    the [return] it ended with. *)
Record exploration : Type := Exploration {
  visited_selectors : gset pystr;
  actions_performed : nat;
  interactions : list (found * pystr);
  stopped : stop
}.

(** The filter on [visited_selectors]. *)
Fixpoint unvisited_elements (visited : gset pystr) (all_elements : list found)
  : list (found * pystr) :=
  match all_elements with
  | [] => []
  | info :: rest =>
      match f_xpath info with
      | Some xpath =>
          if bool_decide (xpath ∈ visited)
          then unvisited_elements visited rest
          else (info, xpath) :: unvisited_elements visited rest
      | None => unvisited_elements visited rest
      end
  end.

(** [recursive_monkey_exploration(actions_done)], started with the given
    [visited_selectors] and [actions_performed].  [intelligent_interaction]
    catches what it raises, so the counter moves at every step. *)
Equations? recursive_monkey_exploration (env : exploration_env)
    (visited : gset pystr) (performed : nat) (actions_done : nat)
  : exploration by wf (MAX_ACTIONS - actions_done)%nat lt :=
  recursive_monkey_exploration env visited performed actions_done
    with le_lt_dec MAX_ACTIONS actions_done => {
    | left _ => Exploration visited performed [] ReachedMaxActions
    | right _ =>
        match discover_interactive_elements env actions_done with
        | [] => Exploration visited performed [] NoInteractiveElements
        | all_elements =>
            match unvisited_elements visited all_elements with
            | [] => Exploration visited performed [] AllVisited
            | first :: others =>
                let unvisited := first :: others in
                let '(info, xpath) :=
                  nth (random_choice env actions_done mod length unvisited)
                      unvisited first in
                let r :=
                  recursive_monkey_exploration env ({[xpath]} ∪ visited)
                    (Datatypes.S performed) (Datatypes.S actions_done) in
                Exploration (visited_selectors r) (actions_performed r)
                            ((info, xpath) :: interactions r) (stopped r)
            end
        end }.
Proof. unfold MAX_ACTIONS in *. lia. Qed.

(** Phase 3 as [main] starts it. *)
Definition phase3 (env : exploration_env) (visited : gset pystr) : exploration :=
  recursive_monkey_exploration env visited 0%nat 0%nat.

(** ** A URL parser to run the examples with *)

Definition scheme_char (c : N) : bool :=
  ((97 <=? c) && (c <=? 122) || (65 <=? c) && (c <=? 90)
   || (48 <=? c) && (c <=? 57) || (c =? 43) || (c =? 45) || (c =? 46))%N.

Definition ascii_alpha (c : N) : bool :=
  ((97 <=? c) && (c <=? 122) || (65 <=? c) && (c <=? 90))%N.

(** The text after [scheme:] when the URL starts with a scheme, else the URL. *)
Fixpoint after_scheme (url rest : pystr) : pystr :=
  match rest with
  | [] => url
  | c :: rest' =>
      if (c =? 58)%N then rest'
      else if scheme_char c then after_scheme url rest'
      else url
  end.

Definition strip_scheme (url : pystr) : pystr :=
  match url with
  | c :: _ => if ascii_alpha c then after_scheme url url else url
  | [] => url
  end.

Fixpoint until_delimiter (s : pystr) : pystr :=
  match s with
  | [] => []
  | c :: rest =>
      if ((c =? 47) || (c =? 63) || (c =? 35))%N then []
      else c :: until_delimiter rest
  end.

(** The authority of a URL, read as [urllib.parse.urlsplit] reads the
    [netloc]: an optional scheme, then [//] and everything up to the next
    [/], [?] or [#].  It answers as [urlparse] does on URLs without leading
    blanks, tabs, line breaks, brackets and non-ASCII hosts, where
    [urlparse] never raises. *)
Definition simple_netloc (url : pystr) : option pystr :=
  match strip_scheme url with
  | 47%N :: 47%N :: rest => Some (until_delimiter rest)
  | _ => Some []
  end.

(** ** Vocabulary of the statements *)

(** One call of [handle_error]. *)
Record call : Type := Call {
  c_now : pystr;
  c_err : pyval;
  c_type : pyval;
  c_details : option dict
}.

Definition handle_call (c : call) (w : world) : world :=
  handle_error (c_now c) (c_err c) (c_type c) (c_details c) w.

(** The signature [handle_error] computes for a call. *)
Definition call_signature (c : call) : option string :=
  generate_error_signature (c_type c) (str (c_err c))
    (details_or_unknown (c_details c) "filename")
    (details_or_unknown (c_details c) "lineno")
    (details_or_unknown (c_details c) "colno").

(** Two calls share the message cut at 200 characters, the filename, the
    line number and the column number. *)
Definition same_fault (c1 c2 : call) : Prop :=
  slice_to 200 (str (c_err c1)) = slice_to 200 (str (c_err c2))
  /\ details_or_unknown (c_details c1) "filename"
     = details_or_unknown (c_details c2) "filename"
  /\ details_or_unknown (c_details c1) "lineno"
     = details_or_unknown (c_details c2) "lineno"
  /\ details_or_unknown (c_details c1) "colno"
     = details_or_unknown (c_details c2) "colno".

(** The records of the ledger on disk. *)
Definition persisted (w : world) : list dict :=
  match error_json_file w with
  | Some l => errors l
  | None => []
  end.

(** The record a call hands to [save_error_to_json] under signature [s]. *)
Definition record_of (c : call) (s : string) (w : world) : dict :=
  error_detail_of (c_now c) (page_url w) s (c_type c) (str (c_err c))
    (details_or_unknown (c_details c) "filename")
    (details_or_unknown (c_details c) "lineno")
    (details_or_unknown (c_details c) "colno") (c_details c).

(** How a call of [handle_error] ends: it raised before the signature was
    there, it found the signature in [seen_errors], it found the record in
    the file, it added the signature and raised before the save, it saved
    the record, or it reached the save and the write raised. *)
Inductive verdict : Type :=
| Raised
| DuplicateSeen
| DuplicateInJson
| SignedOnly
| Saved
| Unwritten.

Definition verdict_of (c : call) (w : world) : verdict :=
  match call_signature c with
  | None => Raised
  | Some s =>
      if bool_decide (s ∈ seen_errors w) then DuplicateSeen
      else if found_in_json w (str (c_err c))
                (details_or_unknown (c_details c) "filename")
                (details_or_unknown (c_details c) "lineno")
              && printable (str (c_type c))
           then DuplicateInJson
           else match c_type c with
                | PStr kind =>
                    if printable kind && printable (str (c_err c))
                    then if dumpable (updated_error_data (c_now c)
                                        (record_of c s w) w)
                         then Saved else Unwritten
                    else SignedOnly
                | _ => SignedOnly
                end
  end.

Definition is_saved (v : verdict) : bool :=
  match v with Saved => true | _ => false end.

Definition is_unwritten (v : verdict) : bool :=
  match v with Unwritten => true | _ => false end.

(** The number of calls of a run that end in a saved record. *)
Fixpoint accepted (cs : list call) (w : world) : nat :=
  match cs with
  | [] => 0%nat
  | c :: rest =>
      ((if is_saved (verdict_of c w) then 1 else 0)
       + accepted rest (handle_call c w))%nat
  end.

(** No call of a run reaches the save with data that cannot be written. *)
Fixpoint every_write_succeeds (cs : list call) (w : world) : bool :=
  match cs with
  | [] => true
  | c :: rest =>
      negb (is_unwritten (verdict_of c w))
      && every_write_succeeds rest (handle_call c w)
  end.

Definition handle_calls (cs : list call) (w : world) : world :=
  fold_left (fun w c => handle_call c w) cs w.

(** A field of [session_info] in the ledger on disk. *)
Definition session_field (w : world) (k : string) : option pyval :=
  match error_json_file w with
  | Some l => session_info l !! k
  | None => None
  end.

(** [session_info.total_errors] of the ledger on disk. *)
Definition total_errors (w : world) : option pyval :=
  session_field w "total_errors".

(** The agreement the ledger is meant to keep: [total_errors] is the number
    of records. *)
Definition counts_agree (w : world) : Prop :=
  total_errors w = Some (PInt (Z.of_nat (length (persisted w)))).

(** A property of the signatures and of the file holds of a world. *)
Definition kept (P : gset string -> option ledger -> Prop) (w : world) : Prop :=
  P (seen_errors w) (error_json_file w).

(** The listeners that append to [navigation_errors]: [on_page_error], and
    [on_console] on a message of type [error] whose location prints. *)
Definition buffers (e : raw_event) : bool :=
  match e with
  | OnPageError _ => true
  | OnConsole msg => bool_decide (cm_type msg = lit "error") && location_prints msg
  | _ => false
  end.

(** The call of [handle_error] a listener ends with when it runs with
    nothing in between, if it makes one. *)
Definition listener_call (a : ambient) (e : raw_event) (w : world)
  : option call :=
  match e with
  | OnPageError err =>
      Some (Call (now a) (PStr (pe_str err)) (PStr (lit "page_error"))
              (Some (add_code_context (fetched_source a)
                       (tag_navigation w
                          (stack_details (pe_message err) (pe_stack err)
                                         (pe_stack_match err))))))
  | OnConsole msg =>
      if bool_decide (cm_type msg = lit "error") && location_prints msg then
        Some (Call (now a) (PStr (cm_text msg)) (PStr (lit "console_error"))
                (Some (add_code_context (fetched_source a)
                         (tag_navigation w (console_details msg)))))
      else None
  | OnPromiseRejection event =>
      match rj_reason event with
      | Some r =>
          Some (Call (now a) (PStr (rs_str r)) (PStr (lit "promise_rejection"))
                  (Some (add_code_context (fetched_source a)
                           (stack_details (rs_message r) (rs_stack r)
                                          (rs_stack_match r)))))
      | None => None
      end
  | OnCustomError event_data =>
      match custom_details event_data with
      | Some d =>
          Some (Call (now a)
                  (dict_get d "message"
                     (dict_get d "reason" (PStr (ce_str event_data))))
                  (dict_get (add_code_context (fetched_source a) d) "type"
                     (PStr (lit "custom_error")))
                  (Some (add_code_context (fetched_source a) d)))
      | None => None
      end
  end.

(** The world a listener that runs with nothing in between makes its call
    on: the details it ends with are among the objects, and a new entry of
    the buffer points to them when the listener buffers. *)
Definition noted (a : ambient) (e : raw_event) (c : call) (w : world) : world :=
  let address := length (objects w) in
  let w' := set_objects (objects w ++ [default ∅ (c_details c)]) w in
  if navigation_in_progress w && buffers e
  then set_navigation_errors
         (navigation_errors w ++ [NavError (str (c_err c)) address (now a)]) w'
  else w'.









(** A lone surrogate, which [encode('utf-8')] refuses. *)
Definition surrogate (c : N) : bool := ((55296 <=? c) && (c <=? 57343))%N.

(** ** Inputs of the examples *)

Definition demo_now : pystr := lit "2025-01-01T10:00:00.000000".

Definition demo_later : pystr := lit "2025-01-01T10:00:07.000000".

(** The session as [main] starts it: the globals of a fresh module, the
    ledger just initialized, the page on [BASE_URL]. *)
Definition demo_start : world :=
  initialize_error_json demo_now (module_start None BASE_URL).

Definition demo_script : pystr :=
  lit "https://add-cwv-check--bbird--aemsites.aem.page/scripts/app.js".

Definition demo_details : dict :=
  <["filename" := PStr demo_script]>
    (<["lineno" := PInt 12]> (<["colno" := PInt 5]> ∅)).

(** The same fault as the console and as the rejection listener report it. *)
Definition demo_console_call : call :=
  Call demo_now (PStr (lit "TypeError: x is undefined"))
       (PStr (lit "console_error")) (Some demo_details).

Definition demo_rejection_call : call :=
  Call demo_later (PStr (lit "TypeError: x is undefined"))
       (PStr (lit "promise_rejection")) (Some demo_details).

Definition demo_console_message : console_message :=
  ConsoleMessage (lit "error") (lit "Failed to load resource")
    (Some (<["url" := PStr demo_script]>
             (<["lineNumber" := PInt 3]> (<["columnNumber" := PInt 1]> ∅))))
    None [].

Definition demo_ambient : ambient := Ambient demo_later None.

Definition demo_last : pystr := lit "2025-01-01T10:00:09.000000".

(** Two messages of 201 characters that differ in the last one only. *)
Definition demo_long_a : pystr := repeat 120%N 200 ++ lit "a".

Definition demo_long_b : pystr := repeat 120%N 200 ++ lit "b".

(** A page of the site other than the origin, and a navigation on which the
    first method times out with the page still there while the reload
    works. *)
Definition demo_other_page : pystr :=
  lit "https://add-cwv-check--bbird--aemsites.aem.page/products".




(** A console error whose listener is still in its fetch when the flush
    runs: the navigation starts, the listener runs up to its [await], the
    guard proceeds to the flush, the listener is resumed. *)
Definition demo_overtaken : list session_step :=
  [ Navigated demo_other_page None;
    Arrives demo_ambient (OnConsole demo_console_message);
    Proceeds 0 demo_later Returns;
    Completes 1 (Ambient demo_last None) ].

(** A rejection whose stack holds a lone surrogate, after the part the
    pattern matched. *)
Definition demo_unwritable : rejection :=
  Rejection
    (Some (Reason (lit "boom") None
                  (Some (PStr (lit "at app.js:1:1 " ++ [55357%N])))
                  (Some (Groups (lit "app.js") 1 (Some 1))))).

(** The fault of [demo_console_call] reported at another column. *)
Definition demo_other_column_call : call :=
  Call demo_later (PStr (lit "TypeError: x is undefined"))
       (PStr (lit "page_error"))
       (Some (<["colno" := PInt 77]> demo_details)).

(** The fault of [demo_console_call] reported with line 0, and reported with
    no line number at all. *)
Definition demo_line_zero : call :=
  Call demo_now (PStr (lit "boom")) (PStr (lit "custom_error"))
       (Some (<["lineno" := PInt 0]> (<["filename" := PStr demo_script]> ∅))).

Definition demo_no_line : call :=
  Call demo_later (PStr (lit "boom")) (PStr (lit "custom_error"))
       (Some (<["filename" := PStr demo_script]> ∅)).


(** A link of the site that opens a new tab, and a button; the page answers
    the first two selectors with them and every other selector with nothing. *)
Definition demo_anchor : handle :=
  Handle 1 (Some true) (Some (lit "a")) (Some (lit "promo")) (Some [])
         (Some (lit "Products")) (Some demo_other_page)
         (Some (lit "a#promo")) (Some (lit "_blank")) true (Some true).

Definition demo_button : handle :=
  Handle 2 (Some true) (Some (lit "button")) (Some (lit "go")) (Some [])
         (Some (lit "Go")) None
         (Some (lit "button#go")) (Some []) true (Some true).

Definition demo_page (selector : pystr) : option (list handle) :=
  if bool_decide (selector = lit "a[href]") then Some [demo_anchor]
  else if bool_decide (selector = lit "button") then Some [demo_button]
  else Some [].

Definition demo_page_without_button (selector : pystr)
  : option (list handle) :=
  if bool_decide (selector = lit "a[href]") then Some [demo_anchor]
  else Some [].

(** A field that shows three suggestions, and shows them again, as fresh
    handles, each time it is typed into. *)
Definition demo_snapshot : list suggestion :=
  [Suggestion 1 true true; Suggestion 2 true true; Suggestion 3 true true].

Definition demo_reprobes (j : nat) : reprobe :=
  Reprobe true
    [ Suggestion (10 * Z.of_nat j + 11) true true;
      Suggestion (10 * Z.of_nat j + 12) true true;
      Suggestion (10 * Z.of_nat j + 13) true true ].

(** A source file whose first line is blank and whose second line throws. *)
Definition demo_source : pystr := [10%N] ++ lit "throw new Error('x')".

(** A source file whose first line is indented and whose second line
    throws. *)
Definition demo_indented_source : pystr :=
  lit "  init();" ++ [10%N] ++ lit "throw new Error('x')".

(** A custom event whose filename is a number. *)
Definition demo_numeric_filename : dict :=
  <["filename" := PInt 404]> (<["message" := PStr (lit "boom")]> ∅).

(** A console error without a structured location whose text matches the
    general pattern. *)
Definition demo_text_match : groups := Groups (lit "//cdn/app.js") 12 (Some 5).

Definition demo_unlocated_message : console_message :=
  ConsoleMessage (lit "error") (lit "boom at https://cdn/app.js:12:5") None
    (Some demo_text_match)
    [Some (Groups (lit "https") 12 (Some 5)); None; None; None].

(** The test [main] makes before phase 4:
    [blind_strategy.actions_performed < MAX_ACTIONS]. *)
Definition phase4_runs (r : exploration) : bool :=
  (actions_performed r <? MAX_ACTIONS)%nat.

(** The path the sweep files an element under. *)
Definition path_of (info : element_info) : pystr :=
  get_stable_dom_path (ei_element info).

(** The fault of [demo_console_message] as an unhandled rejection reports
    it: same text, and a stack whose first location is the same place. *)
Definition demo_rejection : rejection :=
  Rejection
    (Some (Reason (lit "Failed to load resource") None
                  (Some (PStr (lit "at scripts/app.js")))
                  (Some (Groups demo_script 3 (Some 1))))).

(** ** [display_final_summary] *)

(** [error_types[error_type] = error_types.get(error_type, 0) + 1] on a
    dict that keeps its keys in insertion order; a key that compares equal
    ([1] and [True]) is the same key. *)
Fixpoint count_type (error_types : list (pyval * nat)) (error_type : pyval)
  : list (pyval * nat) :=
  match error_types with
  | [] => [(error_type, 1%nat)]
  | (k, n) :: rest =>
      if Py.eqb k error_type then (k, Datatypes.S n) :: rest
      else (k, n) :: count_type rest error_type
  end.

(** The counts the summary prints, one per error type. *)
Definition error_types_summary (recorded : list dict) : list (pyval * nat) :=
  fold_left
    (fun error_types error =>
       count_type error_types
                  (dict_get error "error_type" (PStr (lit "unknown"))))
    recorded [].

(** What [display_final_summary] reports once the file is loaded: nothing
    captured, or the total and the counts by type. *)
Inductive summary : Type :=
| NoErrorsCaptured
| Captured (total : nat) (by_type : list (pyval * nat)).

Definition display_final_summary (error_data : ledger) : summary :=
  let total := length (errors error_data) in
  if (total =? 0)%nat then NoErrorsCaptured
  else Captured total (error_types_summary (errors error_data)).

(** ** [get_xpath] *)

(** A DOM tree as the script of [get_xpath] walks it: an element with its
    [tagName] and its child nodes, or a node of another type (text, comment,
    doctype). *)
Inductive dom : Type :=
| Element (tagName : pystr) (childNodes : list dom)
| OtherNode.

Definition node_tag (n : dom) : option pystr :=
  match n with
  | Element t _ => Some t
  | OtherNode => None
  end.

(** An element on the walk up: its [tagName] and its previous siblings, the
    nearest first, each with its [tagName] when it is an element. *)
Record level : Type := Level {
  lv_tagName : pystr;
  lv_previous : list (option pystr)
}.

(** The inner loop: [idx] starts at 1 and counts the previous siblings
    that are elements with the same [tagName]. *)
Definition sibling_index (elt : level) : nat :=
  Datatypes.S
    (length (List.filter
               (fun sib => bool_decide (sib = Some (lv_tagName elt)))
               (lv_previous elt))).

Section XPath.

(** [String.prototype.toLowerCase]. *)
Variable toLowerCase : pystr -> pystr.

(** The body of the outer loop: the segment of [elt] goes in front. *)
Definition xpath_step (path : pystr) (elt : level) : pystr :=
  let idx := sibling_index elt in
  let xname := toLowerCase (lv_tagName elt) in
  lit "/" ++ xname ++ lit "[" ++ str (PInt (Z.of_nat idx)) ++ lit "]" ++ path.

(** [getElementXPath(elt)], on the element followed by its ancestors up to
    the root element, whose parent is the document and ends the loop. *)
Definition getElementXPath (elt_and_ancestors : list level) : pystr :=
  fold_left xpath_step elt_and_ancestors [].

End XPath.

(** The levels below [e] on the way to the element at [path], a list of
    child positions; [None] when the path leaves the tree or ends on a node
    that is not an element. *)
Fixpoint levels_to (e : dom) (path : list nat) : option (list level) :=
  match path with
  | [] => match e with Element _ _ => Some [] | OtherNode => None end
  | i :: rest =>
      match e with
      | Element _ children =>
          match nth_error children i with
          | Some (Element t cs) =>
              option_map
                (cons (Level t (rev (map node_tag (firstn i children)))))
                (levels_to (Element t cs) rest)
          | _ => None
          end
      | OtherNode => None
      end
  end.

(** The element at [path] under the root element, followed by its
    ancestors.  The root element has no element before it in the document. *)
Definition ancestry (root : dom) (path : list nat) : option (list level) :=
  match root with
  | Element t _ =>
      option_map (fun below => rev (Level t [] :: below)) (levels_to root path)
  | OtherNode => None
  end.

(** [get_xpath(element)] for the element at [path]; [None] when there is no
    such element to evaluate the script on. *)
Definition get_xpath (toLowerCase : pystr -> pystr) (root : dom)
    (path : list nat) : option pystr :=
  option_map (getElementXPath toLowerCase) (ancestry root path).

(** The tag names that occur in a tree. *)
Fixpoint tags_of (e : dom) : list pystr :=
  match e with
  | Element t children => t :: flat_map tags_of children
  | OtherNode => []
  end.

(** Lower case of ASCII letters, to run the examples with. *)
Definition ascii_lower (s : pystr) : pystr :=
  map (fun c => if ((65 <=? c) && (c <=? 90))%N then (c + 32)%N else c) s.

(** [<html><body><a/>text<a/><p/></body></html>]. *)
Definition demo_document : dom :=
  Element (lit "HTML")
    [Element (lit "BODY")
       [Element (lit "A") []; OtherNode; Element (lit "A") [];
        Element (lit "P") []]].

(** * Properties *)

(** ** Signatures *)

Lemma message_part (m : pystr) :
  (if truthy (PStr m) then slice_to 200 m else []) = slice_to 200 m.
Proof. destruct m; reflexivity. Qed.

Lemma signature_of_parts (t : pyval) (m : pystr) (f l c : pyval) :
  generate_error_signature t m f l c =
  (s ← join_values (lit "|")
         [ PStr (slice_to 200 m);
           (if truthy f then f else PStr []);
           PStr (if truthy l then str l else []);
           PStr (if truthy c then str c else []) ];
   bytes ← encode_utf8 s;
   Some (Md5.hexdigest bytes)).
Proof.
  unfold generate_error_signature, signature_parts.
  rewrite message_part. reflexivity.
Qed.

Lemma join_four (sep p0 p2 p3 : pystr) (x : pyval) :
  join_values sep [PStr p0; x; PStr p2; PStr p3]
  = match x with
    | PStr p1 => Some (p0 ++ sep ++ p1 ++ sep ++ p2 ++ sep ++ p3)
    | _ => None
    end.
Proof. destruct x; reflexivity. Qed.

(** The signature, written out: the MD5 of the UTF-8 bytes of the four
    parts with a [|] between them. *)
Lemma signature_written_out (t : pyval) (m : pystr) (f l c : pyval) :
  generate_error_signature t m f l c
  = match (if truthy f then f else PStr []) with
    | PStr filename =>
        bytes ← encode_utf8 (slice_to 200 m ++ lit "|" ++ filename ++ lit "|"
                             ++ (if truthy l then str l else []) ++ lit "|"
                             ++ (if truthy c then str c else []));
        Some (Md5.hexdigest bytes)
    | _ => None
    end.
Proof.
  rewrite signature_of_parts, join_four.
  destruct (if truthy f then f else PStr []); reflexivity.
Qed.

Lemma same_fault_signature (c1 c2 : call) :
  same_fault c1 c2 -> call_signature c1 = call_signature c2.
Proof.
  intros (Hm & Hf & Hl & Hc). unfold call_signature.
  rewrite !signature_of_parts, Hm, Hf, Hl, Hc. reflexivity.
Qed.

Lemma hex_length (bs : list Z) :
  String.length (Md5.hex bs) = (2 * length bs)%nat.
Proof.
  induction bs as [|b bs IH]; simpl; [reflexivity|]. rewrite IH. lia.
Qed.

Lemma hexdigest_length (bytes : list Z) :
  String.length (Md5.hexdigest bytes) = 32%nat.
Proof.
  unfold Md5.hexdigest, Md5.digest. rewrite hex_length, !length_app.
  unfold Md5.le_bytes. rewrite !length_map, !length_seq. reflexivity.
Qed.

(** ** The pipeline *)

Lemma handle_call_unfold (c : call) (w : world) :
  handle_call c w =
  match verdict_of c w, call_signature c with
  | (Saved | Unwritten), Some s =>
      save_error_to_json (c_now c) (record_of c s w)
        (set_seen_errors ({[s]} ∪ seen_errors w) w)
  | SignedOnly, Some s => set_seen_errors ({[s]} ∪ seen_errors w) w
  | _, _ => w
  end.
Proof.
  unfold handle_call, handle_error, verdict_of, call_signature.
  destruct generate_error_signature as [s|]; [|reflexivity].
  case_bool_decide; [reflexivity|].
  destruct (found_in_json _ _ _ _ && _); [reflexivity|].
  unfold record_of.
  destruct (c_type c) as [| | |kind]; try reflexivity.
  destruct (printable kind && _); [|reflexivity].
  destruct (dumpable _); reflexivity.
Qed.

(** How a save ends: the file kept P the data, or it no longer parses. *)
Lemma save_written (t : pystr) (d : dict) (w : world) :
  error_json_file (save_error_to_json t d w)
  = if dumpable (updated_error_data t d w)
    then Some (updated_error_data t d w) else None.
Proof. reflexivity. Qed.

Lemma handle_call_seen_mono (c : call) (w : world) :
  seen_errors w ⊆ seen_errors (handle_call c w).
Proof.
  rewrite handle_call_unfold.
  destruct (verdict_of c w), (call_signature c); simpl; set_solver.
Qed.

Lemma handle_call_duplicate (c : call) (w : world) (s : string) :
  call_signature c = Some s -> s ∈ seen_errors w -> handle_call c w = w.
Proof.
  intros Hs Hin. rewrite handle_call_unfold. unfold verdict_of.
  rewrite Hs. rewrite bool_decide_eq_true_2 by assumption. reflexivity.
Qed.

Lemma handle_call_file_changed (c : call) (w : world) :
  error_json_file (handle_call c w) <> error_json_file w ->
  exists s, call_signature c = Some s /\ s ∈ seen_errors (handle_call c w).
Proof.
  rewrite handle_call_unfold.
  destruct (verdict_of c w), (call_signature c) as [s|]; simpl;
    try congruence; intros _; exists s; (split; [reflexivity | set_solver]).
Qed.

Lemma handle_call_saved (c : call) (w : world) :
  verdict_of c w = Saved ->
  exists d, persisted (handle_call c w) = persisted w ++ [d]
            /\ total_errors (handle_call c w)
               = Some (PInt (Z.of_nat (length (persisted w ++ [d]))))
            /\ session_field (handle_call c w) "last_updated"
               = Some (PStr (c_now c)).
Proof.
  intros Hv. rewrite handle_call_unfold, Hv.
  unfold verdict_of in Hv.
  destruct (call_signature c) as [s|] eqn:Hs; [|discriminate].
  case_bool_decide; [discriminate|].
  destruct (found_in_json _ _ _ _ && _); [discriminate|].
  destruct (c_type c) as [| | |kind]; try discriminate.
  destruct (printable kind && _); [|discriminate].
  destruct (dumpable _) eqn:Hd; [|discriminate].
  exists (record_of c s w).
  unfold persisted, total_errors, session_field.
  rewrite save_written.
  change (updated_error_data (c_now c) (record_of c s w)
            (set_seen_errors ({[s]} ∪ seen_errors w) w))
    with (updated_error_data (c_now c) (record_of c s w) w).
  rewrite Hd. unfold updated_error_data. cbn [errors session_info].
  split; [|split].
  - destruct (error_json_file w); reflexivity.
  - rewrite lookup_insert_eq. destruct (error_json_file w); reflexivity.
  - rewrite lookup_insert_ne by discriminate. apply lookup_insert_eq.
Qed.

Lemma handle_call_unwritten (c : call) (w : world) :
  verdict_of c w = Unwritten ->
  error_json_file (handle_call c w) = None.
Proof.
  intros Hv. rewrite handle_call_unfold, Hv.
  unfold verdict_of in Hv.
  destruct (call_signature c) as [s|] eqn:Hs; [|discriminate].
  case_bool_decide; [discriminate|].
  destruct (found_in_json _ _ _ _ && _); [discriminate|].
  destruct (c_type c) as [| | |kind]; try discriminate.
  destruct (printable kind && _); [|discriminate].
  destruct (dumpable _) eqn:Hd; [discriminate|].
  rewrite save_written.
  change (updated_error_data (c_now c) (record_of c s w)
            (set_seen_errors ({[s]} ∪ seen_errors w) w))
    with (updated_error_data (c_now c) (record_of c s w) w).
  rewrite Hd. reflexivity.
Qed.

Lemma handle_call_not_saved (c : call) (w : world) :
  verdict_of c w <> Saved -> verdict_of c w <> Unwritten ->
  error_json_file (handle_call c w) = error_json_file w.
Proof.
  intros Hv Hu. rewrite handle_call_unfold.
  destruct (verdict_of c w), (call_signature c); try reflexivity;
    congruence.
Qed.


(** *** What every call of [handle_error] preserves, every step preserves *)

Section Preserved.

Variable P : gset string -> option ledger -> Prop.

Hypothesis call_preserves :
  forall c w, P (seen_errors w) (error_json_file w) ->
              P (seen_errors (handle_call c w))
                (error_json_file (handle_call c w)).

Lemma handle_error_preserves (t : pystr) (err ty : pyval)
    (det : option dict) (w : world) :
  kept P w -> kept P (handle_error t err ty det w).
Proof. exact (call_preserves (Call t err ty det) w). Qed.

Lemma handle_calls_preserves (cs : list call) (w : world) :
  kept P w -> kept P (handle_calls cs w).
Proof.
  revert w. induction cs as [|c cs IH]; intros w Hw; [exact Hw|].
  apply IH, call_preserves, Hw.
Qed.

Lemma listener_resumes_preserves (a : ambient) (s : suspended) (w : world) :
  kept P w -> kept P (listener_resumes a s w).
Proof. intros Hw. apply handle_error_preserves. exact Hw. Qed.

Lemma arrives_preserves (a : ambient) (e : raw_event) (w : world) :
  kept P w -> kept P (arrives a e w).1.
Proof.
  intros Hw. destruct e as [err|msg|event|event_data]; simpl.
  - unfold buffer_navigation. simpl. destruct (navigation_in_progress w); exact Hw.
  - unfold console_arrives. destruct (_ && _); [|exact Hw].
    unfold buffer_navigation. simpl. destruct (navigation_in_progress w); exact Hw.
  - unfold rejection_arrives. destruct (rj_reason event); exact Hw.
  - unfold custom_arrives. destruct (custom_details event_data); exact Hw.
Qed.

Lemma run_on_preserves (a : ambient) (r : world * option suspended) :
  kept P r.1 -> kept P (run_on a r).
Proof.
  destruct r as [w [s|]]; simpl; [apply listener_resumes_preserves | auto].
Qed.

Lemma deliver_preserves (ae : ambient * raw_event) (w : world) :
  kept P w -> kept P (deliver ae w).
Proof.
  intros Hw. destruct ae as [a e].
  assert (Hd : deliver (a, e) w = run_on a (arrives a e w))
    by (destruct e; reflexivity).
  rewrite Hd. apply run_on_preserves, arrives_preserves, Hw.
Qed.

Lemma flush_preserves (t new_url : pystr) (info : option dict) (w : world) :
  kept P w -> kept P (flush_navigation_errors t new_url info w).
Proof.
  unfold flush_navigation_errors. generalize (navigation_errors w) as l.
  intros l. revert w. induction l as [|nav l IH]; intros w Hw; [exact Hw|].
  simpl. apply IH. unfold flush_entry. apply handle_error_preserves. exact Hw.
Qed.

Lemma awaited_preserves (m : method) (o : outcome) (w : world) :
  kept P w -> kept P (awaited m o w).2.
Proof. intros Hw. destruct m, o; exact Hw. Qed.

Lemma step_preserves (netloc : pystr -> option pystr) (s : session_step)
    (w : world) :
  kept P w -> kept P (step netloc w s).
Proof.
  intros Hw. destruct s as [a e|a e|i a|new_url info|i t o]; cbn [step].
  - apply deliver_preserves, Hw.
  - pose proof (arrives_preserves a e w Hw) as Ha.
    destruct (arrives a e w) as [w1 [s|]]; [|exact Ha].
    destruct (s_line_number s); [exact Ha|].
    apply listener_resumes_preserves, Ha.
  - destruct (tasks w !! i) as [[s| | | |]|]; try exact Hw.
    apply listener_resumes_preserves. exact Hw.
  - unfold navigation_starts. case_bool_decide; [exact Hw|].
    destruct (announces _ _); exact Hw.
  - unfold navigation_proceeds.
    destruct (tasks w !! i) as [[s|new_url info|m| |]|]; try exact Hw.
    + apply (flush_preserves t new_url info w Hw).
    + pose proof (awaited_preserves m o w Hw) as Ha.
      destruct (awaited m o w) as [ok w1]. destruct ok; [exact Ha|].
      destruct (next_method netloc m w1); exact Ha.
Qed.

Lemma session_preserves (netloc : pystr -> option pystr)
    (steps : list session_step) (w : world) :
  kept P w -> kept P (session_run netloc steps w).
Proof.
  unfold session_run. revert w.
  induction steps as [|s steps IH]; intros w Hw; [exact Hw|].
  simpl. apply IH, step_preserves, Hw.
Qed.

Lemma return_preserves (netloc : pystr -> option pystr)
    (env : navigation_env) (w : world) :
  kept P w -> kept P (return_to_original netloc env w).2.
Proof.
  unfold return_to_original.
  assert (H : forall ms acc, kept P acc.2 ->
                kept P (fold_left (try_method netloc env) ms acc).2).
  { induction ms as [|m ms IH]; intros acc Hacc; [exact Hacc|].
    simpl. apply IH. destruct acc as [ok w0]. unfold try_method.
    destruct ok; [exact Hacc|].
    destruct (applicable netloc m w0); [|exact Hacc].
    pose proof (awaited_preserves m (outcome_of env m) _
                  (session_preserves netloc (while_awaiting env m) w0 Hacc))
      as Ha.
    destruct (awaited m _ _) as [ok w1]. simpl in *.
    destruct ok; [apply session_preserves|]; exact Ha. }
  intros Hw. apply H. exact Hw.
Qed.

Lemma handle_navigation_preserves (netloc : pystr -> option pystr)
    (env : navigation_env) (new_url : pystr) (info : option dict) (w : world) :
  kept P w -> kept P (handle_navigation netloc env new_url info w).
Proof.
  intros Hw. unfold handle_navigation, navigation_starts.
  case_bool_decide; [exact Hw|].
  destruct (announces _ _); [|exact Hw].
  pose proof (return_preserves netloc env
                (flush_navigation_errors (flush_now env) new_url
                   (match info with
                    | Some _ => info
                    | None => current_element_info w
                    end)
                   (session_run netloc (while_loading env)
                      (set_navigation_errors []
                         (set_navigation_in_progress true w))))) as Hr.
  destruct (return_to_original netloc env _) as [ok w1]. simpl in *.
  apply Hr, flush_preserves, session_preserves. exact Hw.
Qed.

End Preserved.

(** The listeners and the guard only ever add signatures. *)

Lemma session_run_seen_mono (netloc : pystr -> option pystr)
    (steps : list session_step) (w : world) :
  seen_errors w ⊆ seen_errors (session_run netloc steps w).
Proof.
  apply (session_preserves (fun seen _ => seen_errors w ⊆ seen)); [|unfold kept; done].
  intros c w' Hw'. etransitivity; [exact Hw' | apply handle_call_seen_mono].
Qed.

(** A call that changed the ledger makes every later call with the same
    signature a no-op. *)
Lemma no_second_record (netloc : pystr -> option pystr) (c1 c2 : call)
    (steps : list session_step) (w : world) :
  call_signature c1 = call_signature c2 ->
  error_json_file (handle_call c1 w) <> error_json_file w ->
  handle_call c2 (session_run netloc steps (handle_call c1 w))
  = session_run netloc steps (handle_call c1 w).
Proof.
  intros Hsig Hch.
  destruct (handle_call_file_changed c1 w Hch) as (s & Hs & Hin).
  apply handle_call_duplicate with (s := s); [congruence|].
  eapply session_run_seen_mono; eassumption.
Qed.

(** C2. The signature is the MD5 of the message cut at 200 characters, the
    filename, the line number and the column number, joined with [|] and
    encoded as UTF-8, in hexadecimal; the kind of the error is not hashed, so
    two events of any two kinds that agree on the four parts get the same
    signature.  The hash is MD5: it gives the digests of RFC 1321 and those
    of [hashlib] on the signatures of the examples, always 32 digits; and
    each of the four parts is hashed: changing one changes the signature of
    the example. *)
Theorem signature_excludes_kind (t1 t2 : pyval) (m1 m2 : pystr) (f l c : pyval) :
  slice_to 200 m1 = slice_to 200 m2 ->
  generate_error_signature t1 m1 f l c = generate_error_signature t2 m2 f l c
  /\ generate_error_signature t1 m1 f l c
     = match (if truthy f then f else PStr []) with
       | PStr filename =>
           bytes ← encode_utf8
                     (slice_to 200 m1 ++ lit "|" ++ filename ++ lit "|"
                      ++ (if truthy l then str l else []) ++ lit "|"
                      ++ (if truthy c then str c else []));
           Some (Md5.hexdigest bytes)
       | _ => None
       end
  /\ (forall bytes, String.length (Md5.hexdigest bytes) = 32%nat)
  /\ option_map Md5.hexdigest (encode_utf8 (lit ""))
     = Some "d41d8cd98f00b204e9800998ecf8427e"%string
  /\ option_map Md5.hexdigest (encode_utf8 (lit "abc"))
     = Some "900150983cd24fb0d6963f7d28e17f72"%string
  /\ option_map Md5.hexdigest (encode_utf8 (lit "message digest"))
     = Some "f96b697d7cb7938d525a2f31aaf161d0"%string
  /\ option_map Md5.hexdigest
       (encode_utf8 (lit "12345678901234567890123456789012345678901234567890123456789012345678901234567890"))
     = Some "57edf4a22be3c955ac49da2e2107b67a"%string
  /\ generate_error_signature t1 (lit "boom") (PStr demo_script) (PInt 12)
       (PInt 5)
     = Some "4f22b667ddc7eb91b9f9897728a41e90"%string
  /\ generate_error_signature t1
       [99; 97; 102; 233; 32; 8364; 32; 128680]%N (PStr demo_script)
       (PInt 12) (PInt 5)
     = Some "c9eb3359a7e138cdc56a8519d9a1e62b"%string
  /\ generate_error_signature t1 (lit "boo") (PStr demo_script) (PInt 12)
       (PInt 5)
     <> generate_error_signature t1 (lit "boom") (PStr demo_script) (PInt 12)
          (PInt 5)
  /\ generate_error_signature t1 (lit "boom") (PStr (lit "app.js")) (PInt 12)
       (PInt 5)
     <> generate_error_signature t1 (lit "boom") (PStr demo_script) (PInt 12)
          (PInt 5)
  /\ generate_error_signature t1 (lit "boom") (PStr demo_script) (PInt 13)
       (PInt 5)
     <> generate_error_signature t1 (lit "boom") (PStr demo_script) (PInt 12)
          (PInt 5)
  /\ generate_error_signature t1 (lit "boom") (PStr demo_script) (PInt 12)
       (PInt 6)
     <> generate_error_signature t1 (lit "boom") (PStr demo_script) (PInt 12)
          (PInt 5).
Proof.
  intros Hm.
  split; [rewrite !signature_of_parts, Hm; reflexivity|].
  split; [apply signature_written_out|].
  split; [apply hexdigest_length|].
  do 4 (split; [vm_compute; reflexivity|]).
  rewrite !signature_written_out.
  do 2 (split; [vm_compute; reflexivity|]).
  repeat split; vm_compute; discriminate.
Qed.

Lemma signature_excludes_kind_witness :
  slice_to 200 demo_long_a = slice_to 200 demo_long_b
  /\ generate_error_signature (PStr (lit "console_error")) demo_long_a
       (PStr demo_script) (PInt 12) (PInt 5)
     = generate_error_signature (PStr (lit "promise_rejection")) demo_long_b
         (PStr demo_script) (PInt 12) (PInt 5).
Proof.
  split; [reflexivity|].
  apply (signature_excludes_kind (PStr (lit "console_error"))
           (PStr (lit "promise_rejection")) demo_long_a demo_long_b
           (PStr demo_script) (PInt 12) (PInt 5)).
  reflexivity.
Defined.

(** C1. Of two fault events of one session that share the message cut at 200
    characters, the filename, the line number and the column number, at most
    one is persisted, whatever kind each was reported as and whatever the
    session did in between: once the first has put a record in the ledger,
    handling the second changes nothing and raises nothing. *)
Theorem one_record_per_fault (netloc : pystr -> option pystr) (c1 c2 : call)
    (steps : list session_step) (w : world) :
  same_fault c1 c2 ->
  error_json_file (handle_call c1 w) <> error_json_file w ->
  handle_call c2 (session_run netloc steps (handle_call c1 w))
  = session_run netloc steps (handle_call c1 w).
Proof.
  intros Hsame Hch. apply no_second_record; [|assumption].
  apply same_fault_signature, Hsame.
Qed.

Lemma one_record_per_fault_witness :
  same_fault demo_console_call demo_rejection_call
  /\ error_json_file (handle_call demo_console_call demo_start)
     <> error_json_file demo_start
  /\ handle_call demo_rejection_call
       (session_run simple_netloc
          [Fault demo_ambient (OnConsole demo_console_message)]
          (handle_call demo_console_call demo_start))
     = session_run simple_netloc
         [Fault demo_ambient (OnConsole demo_console_message)]
         (handle_call demo_console_call demo_start).
Proof.
  assert (Hsame : same_fault demo_console_call demo_rejection_call)
    by (repeat split; reflexivity).
  assert (Hch : error_json_file (handle_call demo_console_call demo_start)
                <> error_json_file demo_start).
  { intros Heq.
    apply (f_equal (fun f => match f with
                             | Some l => length (errors l)
                             | None => 0%nat
                             end)) in Heq.
    vm_compute in Heq. discriminate. }
  split; [exact Hsame | split; [exact Hch |]].
  apply (one_record_per_fault simple_netloc demo_console_call
           demo_rejection_call
           [Fault demo_ambient (OnConsole demo_console_message)] demo_start
           Hsame Hch).
Defined.

Lemma details_or_unknown_insert (k k' : string) (v : pyval) (d : dict) :
  details_or_unknown (Some (<[k:=v]> d)) k'
  = if decide (k = k') then v else dict_get d k' (PStr (lit "Unknown")).
Proof.
  unfold details_or_unknown, dict_get.
  rewrite bool_decide_eq_false_2 by apply insert_non_empty.
  rewrite lookup_insert. destruct (decide (k = k')); reflexivity.
Qed.

Lemma details_or_unknown_missing (det : option dict) (k : string) :
  (forall d, det = Some d -> d !! k = None) ->
  details_or_unknown det k = PStr (lit "Unknown").
Proof.
  intros Hk. destruct det as [d|]; [|reflexivity].
  unfold details_or_unknown, dict_get. rewrite (Hk d eq_refl).
  destruct (bool_decide (d = ∅)); reflexivity.
Qed.

(** C10, as the code has it.  As arguments of [generate_error_signature] a
    line or column number 0 and [None] are hashed alike: both put the empty
    string between the separators.  Two events whose details carry the line
    number 0 and the line number [None] therefore get one signature and are
    deduplicated against each other: once either has put a record in the
    ledger, the other is a no-op at any later time.  An event whose details
    have no line number at all does not reach the function as [None]:
    [handle_error] hands over ['Unknown'] for it. *)
Theorem zero_counts_as_absent (netloc : pystr -> option pystr)
    (t t' : pyval) (m : pystr) (f l c : pyval)
    (now1 now2 : pystr) (err : pyval) (d : dict)
    (steps : list session_step) (w : world) :
  let with_zero := Call now1 err t (Some (<["lineno" := PInt 0]> d)) in
  let without := Call now2 err t' (Some (<["lineno" := PNone]> d)) in
  generate_error_signature t m f (PInt 0) c
  = generate_error_signature t' m f PNone c
  /\ generate_error_signature t m f l (PInt 0)
     = generate_error_signature t' m f l PNone
  /\ generate_error_signature t m f (PInt 0) c
     = match (if truthy f then f else PStr []) with
       | PStr filename =>
           bytes ← encode_utf8
                     (slice_to 200 m ++ lit "|" ++ filename ++ lit "|"
                      ++ [] ++ lit "|" ++ (if truthy c then str c else []));
           Some (Md5.hexdigest bytes)
       | _ => None
       end
  /\ generate_error_signature t m f l (PInt 0)
     = match (if truthy f then f else PStr []) with
       | PStr filename =>
           bytes ← encode_utf8
                     (slice_to 200 m ++ lit "|" ++ filename ++ lit "|"
                      ++ (if truthy l then str l else []) ++ lit "|" ++ []);
           Some (Md5.hexdigest bytes)
       | _ => None
       end
  /\ generate_error_signature t (lit "boom") (PStr demo_script) (PInt 0)
       (PInt 5)
     = Some "bffe4c9bbe74cc5da13272d64df2c0e1"%string
  /\ call_signature with_zero = call_signature without
  /\ (error_json_file (handle_call with_zero w) <> error_json_file w ->
      handle_call without (session_run netloc steps (handle_call with_zero w))
      = session_run netloc steps (handle_call with_zero w))
  /\ (error_json_file (handle_call without w) <> error_json_file w ->
      handle_call with_zero (session_run netloc steps (handle_call without w))
      = session_run netloc steps (handle_call without w))
  /\ (forall det : option dict,
        (forall d', det = Some d' -> d' !! "lineno" = None) ->
        call_signature (Call now1 err t det)
        = generate_error_signature t (str err)
            (details_or_unknown det "filename") (PStr (lit "Unknown"))
            (details_or_unknown det "colno")).
Proof.
  intros with_zero without.
  assert (Hsig : call_signature with_zero = call_signature without).
  { subst with_zero without. unfold call_signature.
    cbn [c_details c_err c_type].
    rewrite !details_or_unknown_insert.
    repeat (case_decide; try congruence).
    rewrite !signature_of_parts. reflexivity. }
  split; [rewrite !signature_of_parts; reflexivity|].
  split; [rewrite !signature_of_parts; reflexivity|].
  split; [rewrite signature_written_out; reflexivity|].
  split; [rewrite signature_written_out; reflexivity|].
  split; [rewrite signature_written_out; vm_compute; reflexivity|].
  split; [exact Hsig|].
  split; [intros Hch; apply no_second_record; auto|].
  split; [intros Hch; apply no_second_record; auto|].
  intros det Hmissing. unfold call_signature. cbn [c_details c_err c_type].
  rewrite (details_or_unknown_missing det "lineno" Hmissing). reflexivity.
Qed.

Lemma zero_counts_as_absent_witness :
  let with_zero :=
    Call demo_now (PStr (lit "boom")) (PStr (lit "custom_error"))
         (Some (<["lineno" := PInt 0]> demo_details)) in
  let without :=
    Call demo_later (PStr (lit "boom")) (PStr (lit "custom_error"))
         (Some (<["lineno" := PNone]> demo_details)) in
  error_json_file (handle_call with_zero demo_start)
    <> error_json_file demo_start
  /\ handle_call without (session_run simple_netloc []
                            (handle_call with_zero demo_start))
     = session_run simple_netloc [] (handle_call with_zero demo_start).
Proof.
  intros with_zero without.
  assert (Hch : error_json_file (handle_call with_zero demo_start)
                <> error_json_file demo_start).
  { intros Heq.
    apply (f_equal (fun f => match f with
                             | Some l => length (errors l)
                             | None => 0%nat
                             end)) in Heq.
    vm_compute in Heq. discriminate. }
  split; [exact Hch|].
  exact (proj1 (proj2 (proj2 (proj2 (proj2 (proj2 (proj2
           (zero_counts_as_absent simple_netloc (PStr (lit "custom_error"))
              (PStr (lit "custom_error")) (lit "boom") PNone PNone PNone
              demo_now demo_later (PStr (lit "boom")) demo_details []
              demo_start))))))) Hch).
Defined.

(** C10 as stated fails for an event that has no line number: it is hashed
    with ['Unknown'] in the place of the line, gets another signature than
    the event with line 0, and both are recorded. *)
Lemma missing_line_is_not_line_zero :
  call_signature demo_line_zero = Some "a83ebbbcafb7a1cdb71693c20263d692"%string
  /\ call_signature demo_no_line = Some "0ec7bf7cf8d5786e1c6c01ace29e4af6"%string
  /\ length (persisted (handle_call demo_line_zero demo_start)) = 1%nat
  /\ length (persisted (handle_call demo_no_line
                          (handle_call demo_line_zero demo_start))) = 2%nat.
Proof. vm_compute. repeat split; reflexivity. Qed.

(** ** The ledger *)

Lemma handle_calls_counts (cs : list call) :
  forall w : world,
    every_write_succeeds cs w = true ->
    length (persisted (handle_calls cs w))
    = (length (persisted w) + accepted cs w)%nat
    /\ total_errors (handle_calls cs w)
       = if (accepted cs w =? 0)%nat then total_errors w
         else Some (PInt (Z.of_nat (length (persisted w) + accepted cs w))).
Proof.
  induction cs as [|c cs IH]; intros w Hok.
  - simpl. split; [lia | reflexivity].
  - change (handle_calls (c :: cs) w) with (handle_calls cs (handle_call c w)).
    simpl in Hok. apply andb_true_iff in Hok as [Hc Hrest].
    destruct (IH (handle_call c w) Hrest) as [IHlen IHtot].
    simpl accepted.
    destruct (verdict_of c w) eqn:Hv; try discriminate;
      try (assert (Hf : error_json_file (handle_call c w) = error_json_file w)
             by (apply handle_call_not_saved; congruence);
           unfold persisted, total_errors, session_field in *;
           rewrite Hf in *; simpl; split; assumption).
    destruct (handle_call_saved c w Hv) as (d & Hp & Ht & _).
    rewrite Hp, Ht in *. rewrite length_app in *. simpl in *.
    split; [lia|].
    rewrite IHtot.
    destruct (accepted cs (handle_call c w)) as [|n]; simpl;
      try reflexivity; do 2 f_equal; lia.
Qed.

Lemma initialize_written (t : pystr) (w : world) :
  persisted (initialize_error_json t w) = []
  /\ total_errors (initialize_error_json t w) = None
  /\ session_field (initialize_error_json t w) "last_updated" = None.
Proof.
  unfold persisted, total_errors, session_field, initialize_error_json,
    json_dump.
  cbn [error_json_file set_error_json_file].
  destruct (dumpable _); repeat split; reflexivity.
Qed.

(** C5, as the code has it.  A save whose data can be written leaves
    [total_errors] equal to the number of records, the record appended and
    [last_updated] set; a save whose data cannot be written leaves a file
    that does not parse.  N accepted errors after the initialization leave N
    records as long as no write has failed, and [total_errors] is then N as
    soon as N is at least 1.  The initialization write itself leaves an empty
    [errors] array and neither [total_errors] nor [last_updated]. *)
Theorem ledger_counts (t t' : pystr) (d : dict) (cs : list call) (w w' : world) :
  (if dumpable (updated_error_data t' d w')
   then counts_agree (save_error_to_json t' d w')
        /\ persisted (save_error_to_json t' d w') = persisted w' ++ [d]
        /\ session_field (save_error_to_json t' d w') "last_updated"
           = Some (PStr t')
   else error_json_file (save_error_to_json t' d w') = None)
  /\ persisted (initialize_error_json t w) = []
  /\ total_errors (initialize_error_json t w) = None
  /\ session_field (initialize_error_json t w) "last_updated" = None
  /\ (every_write_succeeds cs (initialize_error_json t w) = true ->
      length (persisted (handle_calls cs (initialize_error_json t w)))
      = accepted cs (initialize_error_json t w)
      /\ total_errors (handle_calls cs (initialize_error_json t w))
         = if (accepted cs (initialize_error_json t w) =? 0)%nat then None
           else Some (PInt (Z.of_nat
                              (accepted cs (initialize_error_json t w))))).
Proof.
  split.
  { unfold counts_agree, total_errors, session_field, persisted.
    rewrite save_written.
    destruct (dumpable _); [|reflexivity].
    unfold updated_error_data. cbn [errors session_info].
    split; [apply lookup_insert_eq|].
    split; [destruct (error_json_file w'); reflexivity|].
    rewrite lookup_insert_ne by discriminate. apply lookup_insert_eq. }
  destruct (initialize_written t w) as (Hp & Ht & Hl).
  split; [exact Hp|]. split; [exact Ht|]. split; [exact Hl|].
  intros Hok.
  destruct (handle_calls_counts cs (initialize_error_json t w) Hok)
    as [Hlen Htot].
  rewrite Hp in Hlen. rewrite Hp, Ht in Htot. split; assumption.
Qed.

(** C5 as stated fails twice.  At the initialization write the ledger has
    no [total_errors] to equal the length of [errors].  And a write can fail:
    after one console error is saved, a rejection whose stack holds a lone
    surrogate reaches the save, [json.dump] raises and leaves a file that
    does not parse; the next error is saved into a fresh structure, so that
    after three accepted errors the ledger holds one record, with
    [total_errors] 1 and no [execution_start]. *)
Lemma ledger_count_breaks :
  ~ counts_agree (initialize_error_json demo_now (module_start None BASE_URL))
  /\ (let w1 := deliver (demo_ambient, OnConsole demo_console_message)
                        demo_start in
      let w2 := deliver (demo_ambient, OnPromiseRejection demo_unwritable) w1 in
      let w3 := handle_call demo_console_call w2 in
      length (persisted w1) = 1%nat
      /\ total_errors w1 = Some (PInt 1)
      /\ error_json_file w2 = None
      /\ size (seen_errors w2) = 2%nat
      /\ length (persisted w3) = 1%nat
      /\ total_errors w3 = Some (PInt 1)
      /\ session_field w1 "execution_start" = Some (PStr demo_now)
      /\ session_field w3 "execution_start" = None).
Proof.
  split; [unfold counts_agree; vm_compute; discriminate|].
  vm_compute. repeat split; reflexivity.
Qed.

(** ** Listeners *)

Lemma resumed_details (fetched : option pystr) (d : dict) :
  match fetch_request d with
  | Some line_number =>
      with_code_context (code_context_of fetched line_number) d
  | None => d
  end = add_code_context fetched d.
Proof.
  unfold fetch_request, add_code_context, get_code_context_from_location.
  destruct (needs_code_context d); [|reflexivity]. simpl.
  destruct (printable (str (dict_get d "filename" PNone))); [|reflexivity].
  destruct (printable (str (dict_get d "lineno" PNone))); reflexivity.
Qed.

Lemma lookup_last {A : Type} (l : list A) (x : A) :
  (l ++ [x]) !! length l = Some x.
Proof. rewrite lookup_app_r by lia. rewrite Nat.sub_diag. reflexivity. Qed.

Lemma insert_last {A : Type} (l : list A) (x y : A) :
  <[length l := y]> (l ++ [x]) = l ++ [y].
Proof.
  rewrite insert_app_r_alt by lia. rewrite Nat.sub_diag. reflexivity.
Qed.

(** A listener that has just put its details among the objects and is
    resumed at once. *)
Lemma resumes_at_once (a : ambient) (d : dict) (err : pyval)
    (ty : option pyval) (w : world) (o : list dict) :
  objects w = o ++ [d] ->
  listener_resumes a (Suspended (length o) (fetch_request d) err ty) w
  = handle_error (now a) err
      (match ty with
       | Some error_type => error_type
       | None => dict_get (add_code_context (fetched_source a) d) "type"
                          (PStr (lit "custom_error"))
       end)
      (Some (add_code_context (fetched_source a) d))
      (set_objects (o ++ [add_code_context (fetched_source a) d]) w).
Proof.
  intros Ho. unfold listener_resumes. cbn [s_details s_line_number s_err s_type].
  rewrite Ho, lookup_last. cbn [default from_option id].
  rewrite resumed_details, insert_last. reflexivity.
Qed.

Lemma deliver_is_call (a : ambient) (e : raw_event) (w : world) :
  deliver (a, e) w =
  match listener_call a e w with
  | Some c => handle_call c (noted a e c w)
  | None => w
  end.
Proof.
  destruct e as [err|msg|event|event_data]; cbn [deliver listener_call].
  - unfold on_page_error, page_error_arrives, run_on, buffer_navigation, noted.
    cbn [navigation_in_progress set_objects buffers andb].
    rewrite andb_true_r.
    destruct (navigation_in_progress w) eqn:Hn;
      (erewrite resumes_at_once; [reflexivity|]); reflexivity.
  - unfold on_console, console_arrives, run_on, buffer_navigation, noted.
    cbn [navigation_in_progress set_objects buffers].
    destruct (bool_decide (cm_type msg = lit "error") && location_prints msg);
      [|reflexivity].
    rewrite andb_true_r.
    destruct (navigation_in_progress w) eqn:Hn;
      (erewrite resumes_at_once; [reflexivity|]); reflexivity.
  - unfold on_promise_rejection, rejection_arrives, run_on, noted.
    destruct (rj_reason event) as [r|]; [|reflexivity].
    cbn [buffers]. rewrite andb_false_r.
    erewrite resumes_at_once; reflexivity.
  - unfold on_custom_error, custom_arrives, run_on, noted.
    destruct (custom_details event_data) as [d|]; [|reflexivity].
    cbn [buffers]. rewrite andb_false_r.
    erewrite resumes_at_once; reflexivity.
Qed.

Lemma noted_pipeline (a : ambient) (e : raw_event) (c : call) (w : world) :
  seen_errors (noted a e c w) = seen_errors w
  /\ error_json_file (noted a e c w) = error_json_file w
  /\ navigation_in_progress (noted a e c w) = navigation_in_progress w
  /\ page_url (noted a e c w) = page_url w
  /\ tasks (noted a e c w) = tasks w.
Proof. unfold noted. destruct (_ && _); repeat split; reflexivity. Qed.

Lemma deliver_pipeline (a : ambient) (e : raw_event) (w : world) (c : call) :
  listener_call a e w = Some c ->
  exists w', seen_errors w' = seen_errors w
             /\ error_json_file w' = error_json_file w
             /\ deliver (a, e) w = handle_call c w'.
Proof.
  intros Hc. rewrite deliver_is_call, Hc.
  exists (noted a e c w).
  destruct (noted_pipeline a e c w) as (Hs & Hf & _).
  split; [exact Hs|]. split; [exact Hf | reflexivity].
Qed.


(** X2. The set of seen signatures only grows over a session. *)
Theorem signatures_only_grow (netloc : pystr -> option pystr)
    (steps : list session_step) (w : world) (s : string) :
  s ∈ seen_errors w -> s ∈ seen_errors (session_run netloc steps w).
Proof. intros Hin. eapply session_run_seen_mono, Hin. Qed.

Lemma signatures_only_grow_witness :
  let w := handle_call demo_console_call demo_start in
  "3fe7afc8c53596072a5c9c6bf25f88da" ∈ seen_errors w
  /\ "3fe7afc8c53596072a5c9c6bf25f88da"
     ∈ seen_errors
         (session_run simple_netloc
            [Fault demo_ambient (OnConsole demo_console_message)] w).
Proof.
  intros w.
  assert (Hin : "3fe7afc8c53596072a5c9c6bf25f88da" ∈ seen_errors w)
    by (apply (bool_decide_unpack _); vm_compute; exact I).
  split; [exact Hin|].
  exact (signatures_only_grow simple_netloc
           [Fault demo_ambient (OnConsole demo_console_message)] w _ Hin).
Defined.


(** ** Channels *)

(** X22. Deduplication holds across the four channels with no dependence on
    their order: when an event delivered to any listener has put a record in
    the ledger, an event delivered later to any listener whose call of
    [handle_error] shares the message cut at 200 characters, the filename,
    the line and the column leaves the ledger and the signatures as they
    are. *)
Theorem channels_collapse (netloc : pystr -> option pystr)
    (a1 a2 : ambient) (e1 e2 : raw_event) (c1 c2 : call)
    (steps : list session_step) (w : world) :
  listener_call a1 e1 w = Some c1 ->
  listener_call a2 e2 (session_run netloc steps (deliver (a1, e1) w))
  = Some c2 ->
  same_fault c1 c2 ->
  error_json_file (deliver (a1, e1) w) <> error_json_file w ->
  error_json_file
    (deliver (a2, e2) (session_run netloc steps (deliver (a1, e1) w)))
  = error_json_file (session_run netloc steps (deliver (a1, e1) w))
  /\ seen_errors
       (deliver (a2, e2) (session_run netloc steps (deliver (a1, e1) w)))
     = seen_errors (session_run netloc steps (deliver (a1, e1) w)).
Proof.
  intros Hc1 Hc2 Hsame Hch.
  destruct (deliver_pipeline a1 e1 w c1 Hc1) as (w1 & Hs1 & Hf1 & Hd1).
  destruct (deliver_pipeline a2 e2 _ c2 Hc2) as (w2 & Hs2 & Hf2 & Hd2).
  rewrite Hd2.
  assert (Hin : exists s, call_signature c1 = Some s
                          /\ s ∈ seen_errors (deliver (a1, e1) w)).
  { rewrite Hd1. apply handle_call_file_changed.
    rewrite <- Hd1, Hf1. exact Hch. }
  destruct Hin as (s & Hsig & Hin).
  rewrite (handle_call_duplicate c2 w2 s).
  - split; assumption.
  - rewrite <- (same_fault_signature c1 c2 Hsame). exact Hsig.
  - rewrite Hs2. eapply session_run_seen_mono, Hin.
Qed.

Lemma channels_collapse_witness :
  error_json_file (deliver (demo_ambient, OnPromiseRejection demo_rejection)
                           demo_start)
    <> error_json_file demo_start
  /\ error_json_file
       (deliver (demo_ambient, OnConsole demo_console_message)
          (session_run simple_netloc []
             (deliver (demo_ambient, OnPromiseRejection demo_rejection)
                      demo_start)))
     = error_json_file
         (session_run simple_netloc []
            (deliver (demo_ambient, OnPromiseRejection demo_rejection)
                     demo_start)).
Proof.
  assert (Hch : error_json_file
                  (deliver (demo_ambient, OnPromiseRejection demo_rejection)
                           demo_start)
                <> error_json_file demo_start).
  { intros Heq.
    apply (f_equal (fun f => match f with
                             | Some l => length (errors l)
                             | None => 0%nat
                             end)) in Heq.
    vm_compute in Heq. discriminate. }
  split; [exact Hch|].
  refine (proj1 (channels_collapse simple_netloc demo_ambient demo_ambient
                   (OnPromiseRejection demo_rejection)
                   (OnConsole demo_console_message) _ _ [] demo_start
                   eq_refl eq_refl _ Hch)).
  repeat split; reflexivity.
Defined.

(** * Invariants of a whole session *)

(** X26. The number of unique errors the script reports,
    [len(seen_errors)], is never less than the number of records it added to
    the ledger: every saved record comes with a signature that was not in
    the set, and a signature can be added without a record (when
    [error_type] is not a [str]). *)
Theorem signatures_cover_records (netloc : pystr -> option pystr)
    (steps : list session_step) (w : world) :
  (length (persisted w) <= size (seen_errors w))%nat ->
  (length (persisted (session_run netloc steps w))
   <= size (seen_errors (session_run netloc steps w)))%nat.
Proof.
  apply (session_preserves
           (fun seen f =>
              (length (match f with Some l => errors l | None => [] end)
               <= size seen)%nat)).
  intros c w' Hw'.
  assert (Hgrow : forall s, s ∉ seen_errors w' ->
             size ({[s]} ∪ seen_errors w') = Datatypes.S (size (seen_errors w'))).
  { intros s Hs. rewrite size_union by set_solver.
    rewrite size_singleton. reflexivity. }
  destruct (verdict_of c w') eqn:Hv.
  1-3: rewrite handle_call_unfold, Hv; exact Hw'.
  - rewrite handle_call_unfold, Hv. unfold verdict_of in Hv.
    destruct (call_signature c) as [s|]; [|discriminate].
    case_bool_decide as Hs; [discriminate|]. simpl.
    rewrite Hgrow by assumption. lia.
  - destruct (handle_call_saved c w' Hv) as (d & Hp & _).
    unfold persisted in Hp. rewrite Hp, length_app.
    rewrite handle_call_unfold, Hv. unfold verdict_of in Hv.
    destruct (call_signature c) as [s|]; [|discriminate].
    case_bool_decide as Hs; [discriminate|]. simpl.
    rewrite Hgrow by assumption. lia.
  - rewrite (handle_call_unwritten c w' Hv). simpl. lia.
Qed.

Lemma signatures_cover_records_witness :
  (length (persisted demo_start) <= size (seen_errors demo_start))%nat
  /\ (length (persisted
                (session_run simple_netloc
                   [Fault demo_ambient (OnConsole demo_console_message)]
                   demo_start))
      <= size (seen_errors
                 (session_run simple_netloc
                    [Fault demo_ambient (OnConsole demo_console_message)]
                    demo_start)))%nat.
Proof.
  assert (H0 : (length (persisted demo_start)
                <= size (seen_errors demo_start))%nat)
    by (vm_compute; lia).
  split; [exact H0|].
  exact (signatures_cover_records simple_netloc
           [Fault demo_ambient (OnConsole demo_console_message)] demo_start H0).
Defined.

(** ** The navigation guard *)

Lemma try_method_done (netloc : pystr -> option pystr) (env : navigation_env)
    (m : method) (w : world) :
  try_method netloc env (true, w) m = (true, w).
Proof. reflexivity. Qed.

Lemma ladder_done (netloc : pystr -> option pystr) (env : navigation_env)
    (ms : list method) (w : world) :
  fold_left (try_method netloc env) ms (true, w) = (true, w).
Proof. induction ms as [|m ms IH]; [reflexivity | exact IH]. Qed.

(** The state in which a method leaves the ladder: what ran while it was
    awaited, its outcome, and what ran during the sleep when it returned. *)
Lemma try_method_unfold (netloc : pystr -> option pystr)
    (env : navigation_env) (m : method) (w : world) :
  try_method netloc env (false, w) m
  = if applicable netloc m w then
      match outcome_of env m with
      | Returns =>
          (true,
           session_run netloc (while_sleeping env)
             (awaited m Returns
                (session_run netloc (while_awaiting env m) w)).2)
      | Raises u =>
          (false,
           set_page_url u (session_run netloc (while_awaiting env m) w))
      end
    else (false, w).
Proof.
  unfold try_method. destruct (applicable netloc m w); [|reflexivity].
  destruct (outcome_of env m) as [|u]; destruct m; reflexivity.
Qed.

(** X23. The ladder reports failure only when every method it tries
    raises: method 1, then the reload if the page is on the origin's
    netloc (it is passed over, not tried, otherwise), then methods 3, 4
    and 5.  The page is then wherever method 5 left it. *)
Theorem ladder_fails_only_if_all_fail (netloc : pystr -> option pystr)
    (env : navigation_env) (w : world) :
  (return_to_original netloc env w).1 = false
  <-> exists u1 u3 u4 u5,
        method1 env = Raises u1
        /\ (extract_domain netloc u1 <> extract_domain netloc original_url
            \/ exists u2, method2 env = Raises u2)
        /\ method3 env = Raises u3 /\ method4 env = Raises u4
        /\ method5 env = Raises u5
        /\ page_url (return_to_original netloc env w).2 = u5.
Proof.
  unfold return_to_original.
  change (fold_left (try_method netloc env)
            [First; Second; Third; Fourth; Fifth] (false, w))
    with (fold_left (try_method netloc env) [Third; Fourth; Fifth]
            (try_method netloc env
               (try_method netloc env (false, w) First) Second)).
  rewrite (try_method_unfold netloc env First w).
  cbn [applicable outcome_of].
  destruct (method1 env) as [|u1].
  { rewrite try_method_done, ladder_done. split; [discriminate|].
    intros (? & ? & ? & ? & ? & _). discriminate. }
  rewrite (try_method_unfold netloc env Second).
  cbn [applicable outcome_of page_url set_page_url].
  assert (Hrest : forall w',
    (fold_left (try_method netloc env) [Third; Fourth; Fifth] (false, w')).1
    = false
    <-> exists u3 u4 u5,
          method3 env = Raises u3 /\ method4 env = Raises u4
          /\ method5 env = Raises u5
          /\ page_url (fold_left (try_method netloc env)
                         [Third; Fourth; Fifth] (false, w')).2 = u5).
  { intros w'.
    change (fold_left (try_method netloc env) [Third; Fourth; Fifth]
              (false, w'))
      with (try_method netloc env
              (try_method netloc env
                 (try_method netloc env (false, w') Third) Fourth) Fifth).
    rewrite (try_method_unfold netloc env Third w').
    cbn [applicable outcome_of].
    destruct (method3 env) as [|u3].
    { rewrite !try_method_done. split; [discriminate|].
      intros (? & ? & ? & ? & _). discriminate. }
    rewrite (try_method_unfold netloc env Fourth).
    cbn [applicable outcome_of].
    destruct (method4 env) as [|u4].
    { rewrite !try_method_done. split; [discriminate|].
      intros (? & ? & ? & _ & ? & _). discriminate. }
    rewrite (try_method_unfold netloc env Fifth).
    cbn [applicable outcome_of].
    destruct (method5 env) as [|u5].
    { split; [discriminate|].
      intros (? & ? & ? & _ & _ & ? & _). discriminate. }
    split; [|reflexivity]. intros _. exists u3, u4, u5.
    repeat split; reflexivity. }
  case_bool_decide as Hdom.
  - destruct (method2 env) as [|u2].
    { rewrite ladder_done. split; [discriminate|].
      intros (u1' & ? & ? & ? & [= <-] & [Hd | [? ?]] & _);
        [contradiction | discriminate]. }
    rewrite Hrest. split.
    + intros (u3 & u4 & u5 & H3 & H4 & H5 & Hu).
      exists u1, u3, u4, u5. eauto 10.
    + intros (u1' & u3 & u4 & u5 & _ & _ & H3 & H4 & H5 & Hu).
      exists u3, u4, u5. auto.
  - rewrite Hrest. split.
    + intros (u3 & u4 & u5 & H3 & H4 & H5 & Hu).
      exists u1, u3, u4, u5. eauto 10.
    + intros (u1' & u3 & u4 & u5 & _ & _ & H3 & H4 & H5 & Hu).
      exists u3, u4, u5. auto.
Qed.

(** ** The flush *)






(** ** Listeners during a navigation *)

Lemma add_code_context_keeps (fetched : option pystr) (d : dict) (k : string) :
  k <> "code_context" -> add_code_context fetched d !! k = d !! k.
Proof.
  intros Hk. unfold add_code_context.
  destruct (needs_code_context d); [|reflexivity].
  unfold with_code_context.
  destruct get_code_context_from_location as [ctx|]; [|reflexivity].
  destruct (truthy (PStr ctx)); [|reflexivity].
  apply lookup_insert_ne. congruence.
Qed.





(** The flush can also be the first to hand an event over: the listener of
    a console error is still in its fetch when the flush runs, the record is
    saved as a [navigation_error], and the listener's own call, made when
    the fetch returns, finds the signature. *)
Lemma flush_can_come_first :
  let before := session_run simple_netloc (firstn 2 demo_overtaken) demo_start in
  let flushed := session_run simple_netloc (firstn 3 demo_overtaken) demo_start in
  let after := session_run simple_netloc demo_overtaken demo_start in
  persisted before = []
  /\ length (navigation_errors before) = 1%nat
  /\ tasks before
     = [AwaitingLoad demo_other_page None;
        AwaitingFetch (Suspended 0 (Some (PInt 3))
                         (PStr (lit "Failed to load resource"))
                         (Some (PStr (lit "console_error"))))]
  /\ map (fun r => r !! "error_type") (persisted flushed)
     = [Some (PStr (lit "navigation_error"))]
  /\ map (fun r => r !! "code_context") (persisted flushed) = [None]
  /\ size (seen_errors flushed) = 1%nat
  /\ map (fun r => r !! "error_type") (persisted after)
     = [Some (PStr (lit "navigation_error"))]
  /\ size (seen_errors after) = 1%nat
  /\ tasks after = [AwaitingMethod First; Finished].
Proof.
  vm_compute. repeat split; reflexivity.
Qed.

(** ** The navigation guard and the page *)











(** ** Code context *)

Lemma fold_left_app_concat {A : Type} (f : A -> pystr) (l : list A)
    (acc : pystr) :
  fold_left (fun acc i => acc ++ f i) l acc = acc ++ concat (map f l).
Proof.
  revert acc. induction l as [|x l IH]; intros acc; simpl.
  - rewrite app_nil_r. reflexivity.
  - rewrite IH, <- app_assoc. reflexivity.
Qed.

Lemma context_window_spec (lines : list pystr) (line_number i : Z) :
  i ∈ context_window lines line_number
  <-> 0 <= i < Z.of_nat (length lines)
      /\ line_number - 1 - 30 <= i <= line_number - 1 + 30.
Proof. unfold context_window. rewrite elem_of_seqZ. lia. Qed.

Lemma context_window_increasing (lines : list pystr) (line_number : Z)
    (j k : nat) (i1 i2 : Z) :
  context_window lines line_number !! j = Some i1 ->
  context_window lines line_number !! k = Some i2 ->
  (j < k)%nat -> i1 < i2.
Proof.
  unfold context_window. rewrite !lookup_seqZ. lia.
Qed.

Lemma marker_of_render_line (lines : list pystr) (line_number i : Z) :
  firstn 4 (render_line lines line_number i) = lit ">>> "
  <-> i = line_number - 1.
Proof.
  unfold render_line. destruct (Z.eqb_spec i (line_number - 1)) as [->|Hne].
  - split; [reflexivity|]. intros _. reflexivity.
  - split; [|contradiction]. simpl. discriminate.
Qed.

(** What [extract_code_context] returns: the window that runs from 30 lines
    before the error line to 30 lines after it, clipped to the file and in
    file order, 61 lines when nothing is clipped, each line behind a marker
    that is [>>> ] on the error line only, and the whole text with the white
    space at both ends stripped. *)
Lemma context_is_stripped_window (source_code : pystr) (line_number : Z) :
  extract_code_context source_code (PInt line_number)
  = Some (strip (concat (map (render_line (split_lines source_code) line_number)
                             (context_window (split_lines source_code)
                                             line_number))))
  /\ (forall i : Z,
        i ∈ context_window (split_lines source_code) line_number
        <-> 0 <= i < Z.of_nat (length (split_lines source_code))
            /\ line_number - 1 - 30 <= i <= line_number - 1 + 30)
  /\ (forall (j k : nat) (i1 i2 : Z),
        context_window (split_lines source_code) line_number !! j = Some i1 ->
        context_window (split_lines source_code) line_number !! k = Some i2 ->
        (j < k)%nat -> i1 < i2)
  /\ (31 <= line_number <= Z.of_nat (length (split_lines source_code)) - 30 ->
      length (context_window (split_lines source_code) line_number) = 61%nat)
  /\ (forall i : Z,
        0 <= i < Z.of_nat (length (split_lines source_code)) ->
        render_line (split_lines source_code) line_number i
        = (if i =? line_number - 1 then lit ">>> " else lit "    ")
          ++ nth (Z.to_nat i) (split_lines source_code) [] ++ [10%N])
  /\ (forall i : Z,
        firstn 4 (render_line (split_lines source_code) line_number i)
        = lit ">>> "
        <-> i = line_number - 1).
Proof.
  split.
  { unfold extract_code_context. simpl.
    rewrite fold_left_app_concat. reflexivity. }
  split; [intros i; apply context_window_spec|].
  split; [apply context_window_increasing|].
  split.
  { intros Hrange. unfold context_window. rewrite length_seqZ. lia. }
  split; [|intros i; apply marker_of_render_line].
  intros i Hi. unfold render_line.
  destruct (Z.ltb_spec i (Z.of_nat (length (split_lines source_code))));
    [reflexivity | lia].
Qed.

(** C8.  The final [strip()] of [extract_code_context] cuts into the window
    the loop has rendered.  With the error on line 2 of a file whose line 1
    is blank, the window holds both lines and the returned context holds the
    error line only.  With the error on line 2 of a file whose line 1 is
    indented, the loop renders line 1 behind the four-space marker and the
    returned context starts with its text: marker and indentation are gone,
    so the first line no longer lines up with the marked one. *)
Theorem context_loses_edge_lines :
  context_window (split_lines demo_source) 2 = [0; 1]
  /\ concat (map (render_line (split_lines demo_source) 2)
                 (context_window (split_lines demo_source) 2))
     = lit "    " ++ [10%N] ++ lit ">>> throw new Error('x')" ++ [10%N]
  /\ extract_code_context demo_source (PInt 2)
     = Some (lit ">>> throw new Error('x')")
  /\ context_window (split_lines demo_indented_source) 2 = [0; 1]
  /\ concat (map (render_line (split_lines demo_indented_source) 2)
                 (context_window (split_lines demo_indented_source) 2))
     = lit "      init();" ++ [10%N] ++ lit ">>> throw new Error('x')"
       ++ [10%N]
  /\ extract_code_context demo_indented_source (PInt 2)
     = Some (lit "init();" ++ [10%N] ++ lit ">>> throw new Error('x')").
Proof. vm_compute. repeat split; reflexivity. Qed.

(** * Further properties of the signature *)

Ltac lookup_inserts :=
  repeat first [ rewrite lookup_insert_eq
               | rewrite lookup_insert_ne by discriminate ].

Lemma eqb_refl (v : pyval) : Py.eqb v v = true.
Proof.
  destruct v as [|b|z|s]; unfold Py.eqb; cbn [as_number].
  - reflexivity.
  - apply Z.eqb_refl.
  - apply Z.eqb_refl.
  - rewrite bool_decide_eq_true_2 by reflexivity. reflexivity.
Qed.

Lemma details_or_unknown_some (d : dict) (k : string) :
  details_or_unknown (Some d) k = dict_get d k (PStr (lit "Unknown")).
Proof.
  unfold details_or_unknown. case_bool_decide as He; [|reflexivity].
  rewrite He. reflexivity.
Qed.

Lemma lookup_dict_update (b d : dict) (k : string) :
  dict_update b d !! k
  = match d !! k with Some v => Some v | None => b !! k end.
Proof.
  unfold dict_update. rewrite lookup_union.
  destruct (d !! k), (b !! k); reflexivity.
Qed.

Lemma saved_record_fields (t url : pystr) (s : string) (ty : pyval)
    (m : pystr) (det : option dict) :
  (forall d, det = Some d ->
             d !! "error_message" = None /\ d !! "line_number" = None) ->
  same_triple m (details_or_unknown det "filename")
              (details_or_unknown det "lineno")
    (error_detail_of t url s ty m (details_or_unknown det "filename")
       (details_or_unknown det "lineno") (details_or_unknown det "colno") det)
  = true.
Proof.
  intros Hkeys. unfold same_triple, error_detail_of, dict_get.
  destruct det as [d|].
  - destruct (Hkeys d eq_refl) as [Hm Hl].
    rewrite !lookup_dict_update, Hm, Hl.
    rewrite !details_or_unknown_some. unfold dict_get.
    destruct (d !! "filename") as [v|]; lookup_inserts; simpl;
      rewrite !eqb_refl; reflexivity.
  - lookup_inserts. simpl. rewrite !eqb_refl. reflexivity.
Qed.

Lemma filename_part (s : pystr) :
  (if truthy (PStr s) then PStr s else PStr []) = PStr s.
Proof. destruct s; reflexivity. Qed.

(** X7. The four parts are joined with [|] and nothing keeps a [|] inside
    a part apart from the separator: a message [m|a] in file [b] and a
    message [m] in file [a|b] have the same signature, so the two faults are
    deduplicated against each other. *)
Theorem separator_is_not_escaped (t t' : pyval) (m a b : pystr) (l c : pyval) :
  (length (m ++ lit "|" ++ a) <= 200)%nat ->
  generate_error_signature t (m ++ lit "|" ++ a) (PStr b) l c
  = generate_error_signature t' m (PStr (a ++ lit "|" ++ b)) l c.
Proof.
  intros Hlen. rewrite !signature_of_parts, !join_four, !filename_part.
  unfold slice_to. rewrite !firstn_all2.
  - rewrite <- !app_assoc. reflexivity.
  - rewrite length_app in Hlen. lia.
  - exact Hlen.
Qed.

Lemma separator_is_not_escaped_witness :
  (length (lit "x" ++ lit "|" ++ lit "y") <= 200)%nat
  /\ generate_error_signature (PStr (lit "console_error"))
       (lit "x" ++ lit "|" ++ lit "y") (PStr (lit "z")) (PInt 1) (PInt 2)
     = generate_error_signature (PStr (lit "console_error")) (lit "x")
         (PStr (lit "y" ++ lit "|" ++ lit "z")) (PInt 1) (PInt 2).
Proof.
  assert (Hlen : (length (lit "x" ++ lit "|" ++ lit "y") <= 200)%nat)
    by (vm_compute; lia).
  split; [exact Hlen|].
  exact (separator_is_not_escaped _ _ _ _ _ _ _ Hlen).
Defined.

Lemma str_of_truthy (v : pyval) : truthy v = true -> truthy (PStr (str v)) = true.
Proof.
  destruct v as [|[|]|z|s]; simpl; try discriminate; try reflexivity.
  - intros _. destruct (Z.to_int z) as [d|d]; [destruct d|]; reflexivity.
  - intros H. exact H.
Qed.

(** X8. A line or column number given as a number and the same number given
    as text are hashed alike: any value that counts as true contributes its
    [str], so [12] and ["12"] give one signature. *)
Theorem number_and_text_hash_alike (t t' : pyval) (m : pystr) (f v other : pyval) :
  truthy v = true ->
  generate_error_signature t m f v other
  = generate_error_signature t' m f (PStr (str v)) other
  /\ generate_error_signature t m f other v
     = generate_error_signature t' m f other (PStr (str v)).
Proof.
  intros Hv. rewrite !signature_of_parts.
  rewrite Hv, (str_of_truthy v Hv). split; reflexivity.
Qed.

Lemma number_and_text_hash_alike_witness :
  truthy (PInt 12) = true
  /\ generate_error_signature (PStr (lit "page_error")) (lit "boom")
       (PStr demo_script) (PInt 12) (PInt 5)
     = generate_error_signature (PStr (lit "custom_error")) (lit "boom")
         (PStr demo_script) (PStr (lit "12")) (PInt 5).
Proof.
  split; [reflexivity|].
  exact (proj1 (number_and_text_hash_alike (PStr (lit "page_error"))
                  (PStr (lit "custom_error")) (lit "boom") (PStr demo_script)
                  (PInt 12) (PInt 5) eq_refl)).
Defined.

Lemma handle_error_unsigned (now : pystr) (err ty : pyval)
    (det : option dict) (w : world) :
  generate_error_signature ty (str err) (details_or_unknown det "filename")
    (details_or_unknown det "lineno") (details_or_unknown det "colno") = None ->
  handle_error now err ty det w = w.
Proof. intros Hs. unfold handle_error. rewrite Hs. reflexivity. Qed.

(** X9. An event whose filename is a value other than a [str] that counts
    as true (a number, [True]) is dropped: joining the parts raises, the
    [try] of [handle_error] swallows it, and neither the ledger nor
    [seen_errors] changes. *)
Theorem odd_filename_is_dropped (now : pystr) (err ty v : pyval) (d : dict)
    (w : world) :
  d !! "filename" = Some v -> truthy v = true ->
  (forall s, v <> PStr s) ->
  handle_error now err ty (Some d) w = w.
Proof.
  intros Hf Hv Hns. apply handle_error_unsigned.
  rewrite signature_of_parts, join_four, details_or_unknown_some.
  unfold dict_get. rewrite Hf. simpl. rewrite Hv.
  destruct v; try reflexivity. exfalso. eapply Hns. reflexivity.
Qed.

Lemma odd_filename_is_dropped_witness :
  demo_numeric_filename !! "filename" = Some (PInt 404)
  /\ truthy (PInt 404) = true
  /\ handle_error demo_now (PStr (lit "boom")) (PStr (lit "custom_error"))
       (Some demo_numeric_filename) demo_start = demo_start.
Proof.
  split; [reflexivity|]. split; [reflexivity|].
  apply (odd_filename_is_dropped demo_now (PStr (lit "boom"))
           (PStr (lit "custom_error")) (PInt 404) demo_numeric_filename
           demo_start eq_refl eq_refl).
  intros s. discriminate.
Defined.

Lemma utf8_char_surrogate (ch : N) : surrogate ch = true -> utf8_char ch = None.
Proof.
  unfold surrogate, utf8_char. intros H.
  apply andb_true_iff in H as [Hlo Hhi].
  apply N.leb_le in Hlo, Hhi.
  destruct (Z.ltb_spec (Z.of_N ch) 128); [lia|].
  destruct (Z.ltb_spec (Z.of_N ch) 2048); [lia|].
  destruct (Z.ltb_spec (Z.of_N ch) 65536); [|lia].
  destruct (Z.leb_spec 55296 (Z.of_N ch)); [|lia].
  destruct (Z.leb_spec (Z.of_N ch) 57343); [reflexivity|lia].
Qed.

Lemma encode_utf8_surrogate (s : pystr) (ch : N) :
  In ch s -> surrogate ch = true -> encode_utf8 s = None.
Proof.
  intros Hin Hs. induction s as [|x s IH]; [destruct Hin|].
  simpl. destruct Hin as [->|Hin].
  - rewrite (utf8_char_surrogate ch Hs). reflexivity.
  - rewrite (IH Hin). destruct (utf8_char x); reflexivity.
Qed.

(** X10. An event with a lone surrogate among the first 200 characters of
    its message is dropped: the signature string cannot be encoded, the
    exception is swallowed and nothing is recorded. *)
Theorem lone_surrogate_is_dropped (now : pystr) (err ty : pyval)
    (det : option dict) (w : world) (ch : N) :
  In ch (slice_to 200 (str err)) -> surrogate ch = true ->
  handle_error now err ty det w = w.
Proof.
  intros Hin Hs. apply handle_error_unsigned.
  rewrite signature_of_parts, join_four.
  destruct (if truthy (details_or_unknown det "filename")
            then details_or_unknown det "filename" else PStr []);
    try reflexivity.
  simpl. rewrite (encode_utf8_surrogate _ ch); [reflexivity | | exact Hs].
  apply in_or_app. left. exact Hin.
Qed.

Lemma lone_surrogate_is_dropped_witness :
  In 55357%N (slice_to 200 (str (PStr [111%N; 107%N; 55357%N])))
  /\ surrogate 55357 = true
  /\ handle_error demo_now (PStr [111%N; 107%N; 55357%N])
       (PStr (lit "console_error")) (Some demo_details) demo_start
     = demo_start.
Proof.
  assert (Hin : In 55357%N (slice_to 200 (str (PStr [111%N; 107%N; 55357%N]))))
    by (simpl; tauto).
  split; [exact Hin|]. split; [reflexivity|].
  exact (lone_surrogate_is_dropped demo_now _ _ _ demo_start 55357%N Hin eq_refl).
Defined.

(** * Further properties of the code context and of the listeners *)

Lemma extract_of_empty_window (source_code : pystr) (line_number : Z) :
  Z.of_nat (length (split_lines source_code)) + 30 < line_number
  \/ line_number < -29 ->
  extract_code_context source_code (PInt line_number) = Some [].
Proof.
  intros Hout. unfold extract_code_context, context_window. simpl.
  rewrite seqZ_nil by lia. reflexivity.
Qed.

(** X11. No code context is attached when the fetch of the source fails or
    returns an empty text, when the line number is not a number (the
    arithmetic raises), or when the line lies more than 30 lines past the end
    of the file or before line -29 (the window is empty): the details are
    left as they are. *)
Theorem no_context_without_lines (fetched : option pystr) (d : dict) :
  fetched = None \/ fetched = Some []
  \/ (exists s, d !! "lineno" = Some (PStr s))
  \/ (exists source_code line_number,
        fetched = Some source_code
        /\ d !! "lineno" = Some (PInt line_number)
        /\ (Z.of_nat (length (split_lines source_code)) + 30 < line_number
            \/ line_number < -29)) ->
  add_code_context fetched d = d.
Proof.
  intros Hcase. unfold add_code_context.
  destruct (needs_code_context d); [|reflexivity].
  unfold get_code_context_from_location.
  destruct (printable _ && printable _); [|reflexivity].
  unfold code_context_of, dict_get.
  destruct Hcase as [-> | [-> | [[s Hs] | (src & n & -> & Hn & Hout)]]];
    try reflexivity.
  - rewrite Hs. destruct fetched as [src|]; [|reflexivity].
    destruct (truthy (PStr src)); reflexivity.
  - rewrite Hn. cbn [default from_option id].
    destruct (truthy (PStr src)); [|reflexivity].
    rewrite extract_of_empty_window by assumption. reflexivity.
Qed.

Lemma no_context_without_lines_witness :
  add_code_context (Some demo_source) (<["lineno" := PInt 1000]> demo_details)
  = <["lineno" := PInt 1000]> demo_details.
Proof.
  apply no_context_without_lines.
  right. right. right. exists demo_source, 1000.
  split; [reflexivity|]. split; [reflexivity|].
  left. vm_compute. reflexivity.
Defined.

(** X12. Fetching the code context touches one field only: every other key
    of the details keeps its value, and when the details change it is by a
    [code_context] that is the non-empty text [extract_code_context]
    returned for the fetched source and the [lineno] of the details. *)
Theorem context_touches_one_field (fetched : option pystr) (d : dict) :
  (forall k, k <> "code_context" ->
             add_code_context fetched d !! k = d !! k)
  /\ (add_code_context fetched d = d
      \/ exists source_code code_context,
           fetched = Some source_code
           /\ extract_code_context source_code (dict_get d "lineno" PNone)
              = Some code_context
           /\ code_context <> []
           /\ add_code_context fetched d
              = <["code_context" := PStr code_context]> d).
Proof.
  split; [intros k Hk; apply add_code_context_keeps, Hk|].
  unfold add_code_context.
  destruct (needs_code_context d); [|left; reflexivity].
  unfold get_code_context_from_location.
  destruct (printable _ && printable _); [|left; reflexivity].
  unfold code_context_of.
  destruct fetched as [src|]; [|left; reflexivity].
  destruct (truthy (PStr src)); [|left; reflexivity].
  destruct (extract_code_context src _) as [ctx|] eqn:He; [|left; reflexivity].
  destruct ctx as [|ch ctx]; [left; reflexivity|].
  right. exists src, (ch :: ctx). repeat split; try assumption. discriminate.
Qed.

Lemma scan_keeps_location (matches : list (option groups)) (d : dict) :
  location_is_set d = true -> scan_location_patterns matches d = d.
Proof.
  intros Hset. induction matches as [|[g|] rest IH]; simpl;
    [reflexivity | rewrite Hset; exact IH | exact IH].
Qed.

Lemma scan_takes_first (skipped rest : list (option groups)) (g : groups)
    (d : dict) :
  Forall (fun m => m = None) skipped -> location_is_set d = false ->
  scan_location_patterns (skipped ++ Some g :: rest) d = set_location g d.
Proof.
  intros Hskip Hd. induction Hskip as [|m skipped -> _ IH]; simpl.
  - rewrite Hd. reflexivity.
  - exact IH.
Qed.

Lemma location_set_by (g : groups) (d : dict) :
  g_file g <> [] -> location_is_set (set_location g d) = true.
Proof.
  intros Hf. unfold location_is_set, set_location, dict_get.
  destruct (g_col g); lookup_inserts; simpl;
    destruct (g_file g); congruence.
Qed.

(** X14. Without a structured location the patterns are tried in their
    order and the first match is the only one used: a match of the general
    pattern hides the four [location_patterns], and among these a match is
    taken only when every earlier pattern failed. *)
Theorem first_pattern_wins (msg : console_message) (g : groups)
    (skipped rest : list (option groups)) :
  (cm_location msg = None \/ cm_location msg = Some ∅) ->
  cm_text msg <> [] -> g_file g <> [] ->
  (cm_text_match msg = Some g -> console_details msg = set_location g ∅)
  /\ (cm_text_match msg = None ->
      cm_pattern_matches msg = skipped ++ Some g :: rest ->
      Forall (fun m => m = None) skipped ->
      console_details msg = set_location g ∅).
Proof.
  intros Hloc Htext Hfile.
  assert (Hbody : console_details msg
                  = scan_location_patterns (cm_pattern_matches msg)
                      match cm_text_match msg with
                      | Some g' => set_location g' ∅
                      | None => ∅
                      end).
  { unfold console_details.
    destruct Hloc as [-> | ->]; simpl;
      (destruct (cm_text msg); [congruence|]); simpl;
      destruct (cm_text_match msg); reflexivity. }
  rewrite Hbody. split.
  - intros ->. apply scan_keeps_location, location_set_by, Hfile.
  - intros -> -> Hskip. apply scan_takes_first; [exact Hskip | reflexivity].
Qed.

Lemma first_pattern_wins_witness :
  console_details demo_unlocated_message = set_location demo_text_match ∅.
Proof.
  refine (proj1 (first_pattern_wins demo_unlocated_message demo_text_match
                   [] [] _ _ _) eq_refl).
  - left. reflexivity.
  - discriminate.
  - discriminate.
Defined.

(** * Further properties of the scan of the ledger *)

(** X4. The scan of the ledger does not look at the column.  Right after
    an event is saved, an event with the same message, filename and line
    number is dropped whatever its column and its kind, although its
    signature differs.  (The saved event must not carry details named
    [error_message] or [line_number], which would overwrite those fields of
    its record, and the kind of the second event must print.) *)
Theorem other_column_is_dropped (c1 c2 : call) (w : world) :
  error_json_file (handle_call c1 w) <> error_json_file w ->
  error_json_file (handle_call c1 w) <> None ->
  (forall d, c_details c1 = Some d ->
             d !! "error_message" = None /\ d !! "line_number" = None) ->
  str (c_err c2) = str (c_err c1) ->
  details_or_unknown (c_details c2) "filename"
  = details_or_unknown (c_details c1) "filename" ->
  details_or_unknown (c_details c2) "lineno"
  = details_or_unknown (c_details c1) "lineno" ->
  printable (str (c_type c2)) = true ->
  handle_call c2 (handle_call c1 w) = handle_call c1 w.
Proof.
  intros Hch Hsome Hkeys Hm Hf Hl Hp.
  assert (Hv : verdict_of c1 w = Saved).
  { destruct (verdict_of c1 w) eqn:Hv; try reflexivity;
      try (exfalso; apply Hch, handle_call_not_saved; congruence).
    exfalso. apply Hsome, handle_call_unwritten, Hv. }
  assert (Hfound : found_in_json (handle_call c1 w) (str (c_err c1))
                     (details_or_unknown (c_details c1) "filename")
                     (details_or_unknown (c_details c1) "lineno") = true).
  { destruct (handle_call_saved c1 w Hv) as (d & Hd & _).
    assert (Hrec : d = match call_signature c1 with
                       | Some s => record_of c1 s w
                       | None => d
                       end).
    { revert Hd. rewrite handle_call_unfold, Hv.
      unfold verdict_of in Hv.
      destruct (call_signature c1) as [s|]; [|discriminate].
      unfold persisted. rewrite save_written.
      change (updated_error_data (c_now c1) (record_of c1 s w)
                (set_seen_errors ({[s]} ∪ seen_errors w) w))
        with (updated_error_data (c_now c1) (record_of c1 s w) w).
      destruct (dumpable _);
        [|cbn [error_json_file set_error_json_file set_seen_errors];
          intros Hd; symmetry in Hd; apply app_eq_nil in Hd as [_ Hd];
          discriminate].
      unfold updated_error_data. cbn [errors].
      intros Hd. apply app_inj_tail in Hd as [_ Hd]. symmetry. exact Hd. }
    assert (Hs : exists s, call_signature c1 = Some s).
    { unfold verdict_of in Hv. destruct (call_signature c1); [eauto|discriminate]. }
    destruct Hs as [s Hs]. rewrite Hs in Hrec.
    unfold found_in_json. fold (persisted (handle_call c1 w)).
    assert (Hper : error_json_file (handle_call c1 w)
                   = Some (Ledger
                             (match error_json_file (handle_call c1 w) with
                              | Some l => session_info l | None => ∅ end)
                             (persisted (handle_call c1 w)))).
    { unfold persisted. destruct (error_json_file (handle_call c1 w)) as [[i e]|];
        [reflexivity | contradiction]. }
    rewrite Hper. cbn [errors]. rewrite Hd, existsb_app. cbn [existsb].
    rewrite Hrec. unfold record_of.
    rewrite saved_record_fields by assumption.
    rewrite orb_true_l, orb_true_r. reflexivity. }
  rewrite (handle_call_unfold c2). unfold verdict_of.
  destruct (call_signature c2) as [s2|]; [|reflexivity].
  case_bool_decide; [reflexivity|].
  rewrite Hm, Hf, Hl, Hfound, Hp. reflexivity.
Qed.

Lemma other_column_is_dropped_witness :
  call_signature demo_other_column_call <> call_signature demo_console_call
  /\ error_json_file (handle_call demo_console_call demo_start)
     <> error_json_file demo_start
  /\ length (persisted (handle_call demo_other_column_call
                          (handle_call demo_console_call demo_start)))
     = 1%nat.
Proof.
  split; [vm_compute; discriminate|].
  assert (Hch : error_json_file (handle_call demo_console_call demo_start)
                <> error_json_file demo_start).
  { intros Heq.
    apply (f_equal (fun f => match f with
                             | Some l => length (errors l)
                             | None => 0%nat
                             end)) in Heq.
    vm_compute in Heq. discriminate. }
  assert (Hsome : error_json_file (handle_call demo_console_call demo_start)
                  <> None).
  { intros Heq.
    apply (f_equal (fun f => match f with
                             | Some l => length (errors l)
                             | None => 0%nat
                             end)) in Heq.
    vm_compute in Heq. discriminate. }
  split; [exact Hch|].
  rewrite (other_column_is_dropped demo_console_call demo_other_column_call
             demo_start Hch Hsome).
  - vm_compute. reflexivity.
  - intros d Hd. injection Hd as <-. split; reflexivity.
  - reflexivity.
  - reflexivity.
  - reflexivity.
  - reflexivity.
Defined.

(** ** Phase 3 *)

Lemma exploration_step (env : exploration_env) (visited : gset pystr)
    (performed actions_done : nat) :
  recursive_monkey_exploration env visited performed actions_done =
  if le_lt_dec MAX_ACTIONS actions_done
  then Exploration visited performed [] ReachedMaxActions
  else
    match discover_interactive_elements env actions_done with
    | [] => Exploration visited performed [] NoInteractiveElements
    | all_elements =>
        match unvisited_elements visited all_elements with
        | [] => Exploration visited performed [] AllVisited
        | first :: others =>
            let '(info, xpath) :=
              nth (random_choice env actions_done mod length (first :: others))
                  (first :: others) first in
            let r :=
              recursive_monkey_exploration env ({[xpath]} ∪ visited)
                (Datatypes.S performed) (Datatypes.S actions_done) in
            Exploration (visited_selectors r) (actions_performed r)
                        ((info, xpath) :: interactions r) (stopped r)
        end
    end.
Proof.
  rewrite recursive_monkey_exploration_equation_1.
  destruct (le_lt_dec MAX_ACTIONS actions_done);
    simp recursive_monkey_exploration; [reflexivity|].
  destruct (discover_interactive_elements env actions_done); reflexivity.
Qed.

Lemma unvisited_of_nothing (visited : gset pystr) :
  unvisited_elements visited [] = [].
Proof. reflexivity. Qed.


(** ** Phase 1 *)

Lemma fold_left_invariant {A B : Type} (P : A -> Prop) (f : A -> B -> A)
    (l : list B) (a : A) :
  P a -> (forall a b, P a -> P (f a b)) -> P (fold_left f l a).
Proof.
  intros Ha Hf. revert a Ha.
  induction l as [|b l IH]; intros a Ha; simpl; [exact Ha|].
  apply IH, Hf, Ha.
Qed.

(** A link is external as soon as its netloc is known, not empty and not
    the netloc of the page. *)
Lemma is_external_link_true (netloc : pystr -> option pystr)
    (href target_domain link_domain : pystr) :
  href <> [] -> target_domain <> [] -> link_domain <> [] ->
  netloc href = Some link_domain -> link_domain <> target_domain ->
  is_external_link netloc href target_domain = true.
Proof.
  intros Hh Ht Hl Hn Hne. unfold is_external_link. rewrite Hn.
  destruct href; [congruence|]. destruct target_domain; [congruence|].
  destruct link_domain; [congruence|]. simpl.
  rewrite bool_decide_eq_false_2 by assumption. reflexivity.
Qed.

(** The sweep never calls [click] on an element it found external, and it
    counts every element it found. *)
Lemma external_is_never_clicked (netloc : pystr -> option pystr)
    (query_selector_all : pystr -> option (list handle)) (url : pystr)
    (info : element_info) :
  In info (clicks (click_all_links_and_buttons netloc query_selector_all url)) ->
  ei_is_external info = false.
Proof.
  unfold click_all_links_and_buttons. cbn [clicks].
  generalize (discover_clickable netloc query_selector_all
                (extract_domain netloc url)).
  intros st. revert info.
  apply (fold_left_invariant
           (fun res => forall info, In info (click_calls res) ->
                                    ei_is_external info = false)).
  - intros info [].
  - intros res info' Hres info. unfold click_round.
    case_bool_decide; [apply Hres|].
    destruct (ei_is_external info') eqn:Hext; [apply Hres|].
    destruct (negb _); [apply Hres|].
    destruct (negb (h_scroll _)); [apply Hres|].
    destruct (h_enabled _) as [[|]|]; simpl; try apply Hres;
      intros Hin; apply in_app_or in Hin as [Hin|[<-|[]]];
      auto.
Qed.

Lemma discovered_links_are_classified (netloc : pystr -> option pystr)
    (query_selector_all : pystr -> option (list handle))
    (target_domain : pystr) (info : element_info) :
  In info (all_clickable_elements
             (discover_clickable netloc query_selector_all target_domain)) ->
  ei_tag_name info = lit "a" ->
  exists href, ei_href info = Some href
               /\ ei_is_external info
                  = is_external_link netloc href target_domain.
Proof.
  unfold discover_clickable. revert info.
  apply (fold_left_invariant
           (fun st => forall info,
                In info (all_clickable_elements st) ->
                ei_tag_name info = lit "a" ->
                exists href, ei_href info = Some href
                             /\ ei_is_external info
                                = is_external_link netloc href target_domain)).
  - intros info [].
  - intros st selector Hst.
    destruct (query_selector_all selector) as [elements|]; [|exact Hst].
    apply fold_left_invariant; [exact Hst|].
    clear st Hst. intros st element Hst. unfold discover_element.
    destruct (h_visible element) as [[|]|]; try exact Hst.
    destruct (h_tag element) as [tag|]; [|exact Hst].
    destruct (h_elem_id element) as [eid|]; [|exact Hst].
    destruct (h_class element) as [ecl|]; [|exact Hst].
    destruct (h_text element) as [etx|]; [|exact Hst].
    simpl.
    case_bool_decide as Htag.
    + destruct (h_href element) as [href|]; [|exact Hst]. simpl.
      intros info Hin. apply in_app_or in Hin as [Hin|[<-|[]]];
        [apply Hst, Hin|].
      intros _. exists href. split; reflexivity.
    + simpl. intros info Hin. apply in_app_or in Hin as [Hin|[<-|[]]];
        [apply Hst, Hin|].
      simpl. congruence.
Qed.

(** The first half of C6: a link whose registrable domain differs from the
    page's is among the elements found and is never clicked.  The code
    compares the whole netloc, of which the registrable domain is a
    function. *)
Lemma other_domain_link_is_skipped (netloc : pystr -> option pystr)
    (registrable : pystr -> pystr)
    (query_selector_all : pystr -> option (list handle)) (url : pystr)
    (info : element_info) (href link_domain : pystr) :
  In info (all_clickable_elements
             (discover_clickable netloc query_selector_all
                (extract_domain netloc url))) ->
  ei_tag_name info = lit "a" -> ei_href info = Some href ->
  href <> [] -> netloc href = Some link_domain -> link_domain <> [] ->
  extract_domain netloc url <> [] ->
  registrable link_domain <> registrable (extract_domain netloc url) ->
  ei_is_external info = true
  /\ ~ In info (clicks (click_all_links_and_buttons netloc
                          query_selector_all url)).
Proof.
  intros Hin Htag Hhref Hne Hnet Hld Htd Hreg.
  destruct (discovered_links_are_classified netloc query_selector_all
              (extract_domain netloc url) info Hin Htag)
    as (href' & Hhref' & Hext).
  rewrite Hhref in Hhref'. injection Hhref' as <-.
  assert (Htrue : ei_is_external info = true).
  { rewrite Hext.
    apply (is_external_link_true netloc href (extract_domain netloc url)
             link_domain Hne Htd Hld Hnet).
    intros Heq. apply Hreg. rewrite Heq. reflexivity. }
  split; [exact Htrue|].
  intros Hclicked.
  pose proof (external_is_never_clicked netloc query_selector_all url info
                Hclicked) as Hfalse.
  rewrite Htrue in Hfalse. discriminate Hfalse.
Qed.

(** C6 on the page with the link and the button.  Both are found, and the
    link, whose target is [_blank], is clicked: the test on the target reads
    the tag of the element discovered last, the button.  On the page without
    the button the same link is skipped. *)
Theorem new_tab_link_is_clicked :
  h_target demo_anchor = Some (lit "_blank")
  /\ total_elements_found
       (click_all_links_and_buttons simple_netloc demo_page BASE_URL) = 2%nat
  /\ map (fun info => h_id (ei_element info))
         (clicks (click_all_links_and_buttons simple_netloc demo_page BASE_URL))
     = [1; 2]
  /\ clicks (click_all_links_and_buttons simple_netloc
               demo_page_without_button BASE_URL) = [].
Proof. vm_compute. repeat split; reflexivity. Qed.

(** ** Phase 2 *)

(** Every click of the suggestion loop is on a handle of the first
    snapshot, whatever the later queries return. *)
Lemma suggestion_rounds_from_rest (len : nat) (reprobes : nat -> reprobe)
    (rest : list suggestion) :
  forall (j : nat) (s : suggestion),
    In s (suggestion_rounds len reprobes j rest) -> In s rest.
Proof.
  induction rest as [|x rest IH]; intros j s; simpl; [tauto|].
  destruct (negb (s_evaluate x)); [intros []|].
  destruct (negb (s_click x)); [simpl; tauto|].
  destruct (j <? len - 1)%nat.
  - destruct (negb (rp_field (reprobes j))); [simpl; tauto|].
    destruct (j + 1 <? length (rp_found (reprobes j)))%nat; simpl;
      [|tauto].
    intros [->|Hin]; [tauto | right; eapply IH, Hin].
  - simpl. intros [->|Hin]; [tauto | right; eapply IH, Hin].
Qed.

Lemma click_suggestions_from_snapshot (dropdown_elements : list suggestion)
    (reprobes : nat -> reprobe) (s : suggestion) :
  In s (click_suggestions dropdown_elements reprobes) ->
  In s dropdown_elements.
Proof. apply suggestion_rounds_from_rest. Qed.

(** C9 on the field with three suggestions.  The loop makes three clicks,
    all of them on the handles of the first snapshot; no handle of a later
    query (11 to 13, 21 to 23) is clicked, although the second query held a
    handle for the second click and the third one for the third. *)
Theorem clicks_use_first_snapshot :
  click_suggestions demo_snapshot demo_reprobes = demo_snapshot
  /\ map s_id (click_suggestions demo_snapshot demo_reprobes) = [1; 2; 3]
  /\ nth 1 (rp_found (demo_reprobes 0)) (Suggestion 0 true true)
     = Suggestion 12 true true
  /\ nth 2 (rp_found (demo_reprobes 1)) (Suggestion 0 true true)
     = Suggestion 23 true true.
Proof. repeat split; reflexivity. Qed.

(** * Further properties of the exploration *)

Lemma exploration_cases (env : exploration_env)
    (P : gset pystr -> nat -> nat -> exploration -> Prop) :
  (forall visited performed k,
      (MAX_ACTIONS <= k)%nat ->
      P visited performed k
        (Exploration visited performed [] ReachedMaxActions)) ->
  (forall visited performed k,
      (k < MAX_ACTIONS)%nat -> discover_interactive_elements env k = [] ->
      P visited performed k
        (Exploration visited performed [] NoInteractiveElements)) ->
  (forall visited performed k,
      (k < MAX_ACTIONS)%nat ->
      unvisited_elements visited (discover_interactive_elements env k) = [] ->
      P visited performed k (Exploration visited performed [] AllVisited)) ->
  (forall visited performed k info xpath r,
      (k < MAX_ACTIONS)%nat ->
      In (info, xpath)
         (unvisited_elements visited (discover_interactive_elements env k)) ->
      P ({[xpath]} ∪ visited) (Datatypes.S performed) (Datatypes.S k) r ->
      P visited performed k
        (Exploration (visited_selectors r) (actions_performed r)
                     ((info, xpath) :: interactions r) (stopped r))) ->
  forall visited performed k,
    P visited performed k
      (recursive_monkey_exploration env visited performed k).
Proof.
  intros Hmax Hnone Hall Hstep visited performed k.
  remember (MAX_ACTIONS - k)%nat as n eqn:Hn.
  revert visited performed k Hn.
  induction n as [n IH] using lt_wf_ind.
  intros visited performed k Hn.
  rewrite exploration_step.
  destruct (le_lt_dec MAX_ACTIONS k) as [Hle|Hlt]; [apply Hmax, Hle|].
  destruct (discover_interactive_elements env k) as [|f l] eqn:Hd;
    [apply Hnone; assumption|].
  destruct (unvisited_elements visited (f :: l)) as [|first others] eqn:Hu.
  { apply Hall; [assumption|]. rewrite Hd. exact Hu. }
  destruct (nth _ _ first) as [info xpath] eqn:Hpick.
  apply Hstep; [assumption| |].
  - rewrite Hd, Hu, <- Hpick. apply nth_In.
    apply Nat.mod_upper_bound. simpl. lia.
  - apply (IH (MAX_ACTIONS - Datatypes.S k)%nat); [lia | reflexivity].
Qed.



(** X16. [main] runs the stress phase exactly when phase 3 returned below
    the ceiling: started from zero, [actions_performed] is the number of
    interactions, and it is less than [MAX_ACTIONS] if and only if the
    exploration stopped for lack of unvisited elements. *)
Theorem stress_runs_below_ceiling (env : exploration_env)
    (visited : gset pystr) :
  actions_performed (phase3 env visited)
  = length (interactions (phase3 env visited))
  /\ (phase4_runs (phase3 env visited) = true
      <-> stopped (phase3 env visited) <> ReachedMaxActions).
Proof.
  unfold phase3, phase4_runs.
  assert (H : forall visited performed k,
             let r := recursive_monkey_exploration env visited performed k in
             actions_performed r = (performed + length (interactions r))%nat
             /\ (stopped r = ReachedMaxActions
                 /\ (MAX_ACTIONS <= k + length (interactions r))%nat
                 \/ stopped r <> ReachedMaxActions
                    /\ (k + length (interactions r) < MAX_ACTIONS)%nat)
             /\ (length (interactions r) <= MAX_ACTIONS - k)%nat).
  { apply (exploration_cases env
             (fun _ performed k r =>
                actions_performed r = (performed + length (interactions r))%nat
                /\ (stopped r = ReachedMaxActions
                    /\ (MAX_ACTIONS <= k + length (interactions r))%nat
                    \/ stopped r <> ReachedMaxActions
                       /\ (k + length (interactions r) < MAX_ACTIONS)%nat)
                /\ (length (interactions r) <= MAX_ACTIONS - k)%nat)).
    - intros v p k Hk. simpl. split; [lia|]. split; [left; split; [reflexivity|lia] | lia].
    - intros v p k Hk _. simpl. split; [lia|].
      split; [right; split; [discriminate|lia] | lia].
    - intros v p k Hk _. simpl. split; [lia|].
      split; [right; split; [discriminate|lia] | lia].
    - intros v p k info xpath r Hk _ (Hp & Hs & Hl). simpl.
      split; [lia|]. split; [|lia].
      destruct Hs as [[Hs Hb]|[Hs Hb]]; [left | right]; split;
        try assumption; lia. }
  destruct (H visited 0%nat 0%nat) as (Hp & Hs & Hl).
  split; [exact Hp|]. rewrite Nat.ltb_lt.
  destruct Hs as [[Hs Hb]|[Hs Hb]]; split; intros; try congruence; lia.
Qed.

(** * Further properties of the sweep *)

Lemma click_round_cases (tag : option pystr) (res : sweep_state)
    (info : element_info) :
  click_round tag res info = res
  \/ (path_of info ∉ clicked_elements res)
     /\ (click_round tag res info
         = SweepState (click_calls res)
                      ({[path_of info]} ∪ clicked_elements res)
                      (last_element_info res)
         \/ ei_is_external info = false
            /\ h_scroll (ei_element info) = true
            /\ h_enabled (ei_element info) <> Some false
            /\ click_round tag res info
               = SweepState (click_calls res ++ [info])
                            ({[path_of info]} ∪ clicked_elements res)
                            (Some info)).
Proof.
  unfold click_round, path_of.
  case_bool_decide as Hin; [left; reflexivity|].
  right. split; [exact Hin|].
  destruct (ei_is_external info); [left; reflexivity|].
  destruct (negb _); [left; reflexivity|].
  destruct (h_scroll (ei_element info)); [|left; reflexivity].
  destruct (h_enabled (ei_element info)) as [[|]|]; simpl;
    [right | left; reflexivity | right]; repeat split; congruence.
Qed.

Lemma size_add_fresh (p : pystr) (X : gset pystr) :
  p ∉ X -> size ({[p]} ∪ X) = Datatypes.S (size X).
Proof.
  intros Hp. rewrite size_union by set_solver.
  rewrite size_singleton. reflexivity.
Qed.

Lemma sweep_invariant (tag : option pystr) (l : list element_info) :
  forall res : sweep_state,
    NoDup (map path_of (click_calls res)) ->
    (forall info, In info (click_calls res) ->
                  path_of info ∈ clicked_elements res) ->
    (length (click_calls res) <= size (clicked_elements res))%nat ->
    let res' := fold_left (click_round tag) l res in
    NoDup (map path_of (click_calls res'))
    /\ (length (click_calls res') <= size (clicked_elements res'))%nat
    /\ (size (clicked_elements res')
        <= size (clicked_elements res) + length l)%nat
    /\ (forall info, In info (click_calls res') ->
                     In info (click_calls res) \/ In info l).
Proof.
  induction l as [|x l IH]; intros res Hnd Hin Hlen; simpl.
  { repeat split; [assumption | assumption | lia | tauto]. }
  destruct (click_round_cases tag res x)
    as [Heq | [Hfresh [Heq | (_ & _ & _ & Heq)]]]; rewrite Heq.
  - destruct (IH res Hnd Hin Hlen) as (H1 & H2 & H3 & H4).
    repeat split; [assumption | assumption | lia |].
    intros info Hi. destruct (H4 info Hi); tauto.
  - destruct (IH (SweepState (click_calls res)
                    ({[path_of x]} ∪ clicked_elements res)
                    (last_element_info res)))
      as (H1 & H2 & H3 & H4); simpl.
    + assumption.
    + intros info Hi. apply Hin in Hi. set_solver.
    + rewrite size_add_fresh by assumption. lia.
    + simpl in *. rewrite size_add_fresh in H3 by assumption.
      repeat split; [assumption | assumption | lia |].
      intros info Hi. destruct (H4 info Hi); tauto.
  - destruct (IH (SweepState (click_calls res ++ [x])
                    ({[path_of x]} ∪ clicked_elements res) (Some x)))
      as (H1 & H2 & H3 & H4); simpl.
    + rewrite map_app. simpl. apply NoDup_app. split; [assumption|].
      split; [|apply NoDup_singleton].
      intros p Hp Hp'. apply list_elem_of_singleton in Hp' as ->.
      apply list_elem_of_fmap in Hp as (info & Hpi & Hi).
      apply list_elem_of_In, Hin in Hi. rewrite <- Hpi in Hi.
      contradiction.
    + intros info Hi. apply in_app_or in Hi as [Hi|[<-|[]]];
        [apply Hin in Hi|]; set_solver.
    + rewrite length_app, size_add_fresh by assumption. simpl. lia.
    + simpl in *. rewrite size_add_fresh in H3 by assumption.
      repeat split; [assumption | assumption | lia |].
      intros info Hi. destruct (H4 info Hi) as [Hi'|Hi']; [|tauto].
      apply in_app_or in Hi' as [Hi'|[<-|[]]]; tauto.
Qed.

Lemma clicks_are_discovered (netloc : pystr -> option pystr)
    (query_selector_all : pystr -> option (list handle)) (url : pystr)
    (info : element_info) :
  In info (clicks (click_all_links_and_buttons netloc query_selector_all url)) ->
  In info (all_clickable_elements
             (discover_clickable netloc query_selector_all
                (extract_domain netloc url))).
Proof.
  unfold click_all_links_and_buttons. cbn [clicks].
  generalize (discover_clickable netloc query_selector_all
                (extract_domain netloc url)).
  intros st Hi.
  destruct (sweep_invariant (tag_name st) (all_clickable_elements st)
              (SweepState [] ∅ None)) as (_ & _ & _ & H4).
  - constructor.
  - intros info' [].
  - simpl. lia.
  - destruct (H4 info Hi) as [[]|Hi']. exact Hi'.
Qed.

(** X17. The sweep clicks no DOM path twice, and its summary is ordered:
    the number of clicks is at most [successfully_clicked], which counts
    every distinct path the loop reached (skipped ones included) and is at
    most [total_elements_found]; every clicked element is one that was
    found. *)
Theorem sweep_clicks_each_path_once (netloc : pystr -> option pystr)
    (query_selector_all : pystr -> option (list handle)) (url : pystr) :
  NoDup (map path_of
             (clicks (click_all_links_and_buttons netloc query_selector_all
                        url)))
  /\ (length (clicks (click_all_links_and_buttons netloc query_selector_all
                        url))
      <= successfully_clicked
           (click_all_links_and_buttons netloc query_selector_all url))%nat
  /\ (successfully_clicked
        (click_all_links_and_buttons netloc query_selector_all url)
      <= total_elements_found
           (click_all_links_and_buttons netloc query_selector_all url))%nat
  /\ (forall info,
        In info (clicks (click_all_links_and_buttons netloc
                           query_selector_all url)) ->
        In info (all_clickable_elements
                   (discover_clickable netloc query_selector_all
                      (extract_domain netloc url)))).
Proof.
  unfold click_all_links_and_buttons.
  cbn [clicks successfully_clicked total_elements_found].
  generalize (discover_clickable netloc query_selector_all
                (extract_domain netloc url)).
  intros st.
  destruct (sweep_invariant (tag_name st) (all_clickable_elements st)
              (SweepState [] ∅ None)) as (H1 & H2 & H3 & H4).
  - constructor.
  - intros info [].
  - simpl. lia.
  - cbn [clicked_elements] in H3. rewrite size_empty in H3.
    repeat split; [assumption | assumption | lia |].
    intros info Hi. destruct (H4 info Hi) as [[]|Hi']. exact Hi'.
Qed.

Lemma discovered_are_visible (netloc : pystr -> option pystr)
    (query_selector_all : pystr -> option (list handle))
    (target_domain : pystr) (info : element_info) :
  In info (all_clickable_elements
             (discover_clickable netloc query_selector_all target_domain)) ->
  h_visible (ei_element info) = Some true
  /\ h_tag (ei_element info) = Some (ei_tag_name info).
Proof.
  unfold discover_clickable. revert info.
  apply (fold_left_invariant
           (fun st => forall info,
                In info (all_clickable_elements st) ->
                h_visible (ei_element info) = Some true
                /\ h_tag (ei_element info) = Some (ei_tag_name info))).
  - intros info [].
  - intros st selector Hst.
    destruct (query_selector_all selector) as [elements|]; [|exact Hst].
    apply fold_left_invariant; [exact Hst|].
    clear st Hst. intros st element Hst. unfold discover_element.
    destruct (h_visible element) as [[|]|] eqn:Hv; try exact Hst.
    destruct (h_tag element) as [tag|] eqn:Ht; [|exact Hst].
    destruct (h_elem_id element) as [eid|]; [|exact Hst].
    destruct (h_class element) as [ecl|]; [|exact Hst].
    destruct (h_text element) as [etx|]; [|exact Hst].
    cbn [mbind option_bind].
    case_bool_decide as Htag.
    + destruct (h_href element) as [href|]; [|exact Hst].
      cbn [mbind option_bind all_clickable_elements].
      intros info Hin. apply in_app_or in Hin as [Hin|[<-|[]]];
        [apply Hst, Hin|]. split; assumption.
    + cbn [mbind option_bind all_clickable_elements].
      intros info Hin. apply in_app_or in Hin as [Hin|[<-|[]]];
        [apply Hst, Hin|]. split; assumption.
Qed.

Lemma clicked_passed_checks (tag : option pystr) (l : list element_info)
    (info : element_info) :
  In info (click_calls (fold_left (click_round tag) l (SweepState [] ∅ None))) ->
  ei_is_external info = false
  /\ h_scroll (ei_element info) = true
  /\ h_enabled (ei_element info) <> Some false.
Proof.
  revert info.
  apply (fold_left_invariant
           (fun res => forall info, In info (click_calls res) ->
                ei_is_external info = false
                /\ h_scroll (ei_element info) = true
                /\ h_enabled (ei_element info) <> Some false)).
  - intros info [].
  - intros res x Hres info.
    destruct (click_round_cases tag res x)
      as [Heq | [_ [Heq | (He & Hs & Hen & Heq)]]]; rewrite Heq;
      try apply Hres.
    cbn [click_calls]. intros Hin.
    apply in_app_or in Hin as [Hin|[<-|[]]]; [apply Hres, Hin|].
    repeat split; assumption.
Qed.

(** X18. Every element the sweep clicks answered [True] to [is_visible]
    when it was discovered, was not classified external, could be scrolled
    into view and did not answer that it is disabled. *)
Theorem clicked_elements_passed_the_checks (netloc : pystr -> option pystr)
    (query_selector_all : pystr -> option (list handle)) (url : pystr)
    (info : element_info) :
  In info (clicks (click_all_links_and_buttons netloc query_selector_all url)) ->
  h_visible (ei_element info) = Some true
  /\ ei_is_external info = false
  /\ h_scroll (ei_element info) = true
  /\ h_enabled (ei_element info) <> Some false.
Proof.
  intros Hin. split.
  - exact (proj1 (discovered_are_visible netloc query_selector_all
                    (extract_domain netloc url) info
                    (clicks_are_discovered netloc query_selector_all url
                       info Hin))).
  - revert Hin. unfold click_all_links_and_buttons. cbn [clicks].
    generalize (discover_clickable netloc query_selector_all
                  (extract_domain netloc url)).
    intros st Hin.
    exact (clicked_passed_checks (tag_name st) (all_clickable_elements st)
             info Hin).
Qed.

Lemma clicked_elements_passed_the_checks_witness :
  h_visible demo_button = Some true /\ h_scroll demo_button = true.
Proof.
  assert (Hin : In (ElementInfo demo_button (lit "button") (lit "button")
                      (lit "go") [] (lit "Go") None false)
                   (clicks (click_all_links_and_buttons simple_netloc
                              demo_page BASE_URL)))
    by (vm_compute; tauto).
  destruct (clicked_elements_passed_the_checks simple_netloc demo_page
              BASE_URL _ Hin) as (Hv & _ & Hs & _).
  split; [exact Hv | exact Hs].
Defined.

Lemma fold_left_pointwise {A B : Type} (f g : A -> B -> A) (l : list B) (a : A) :
  (forall a b, f a b = g a b) -> fold_left f l a = fold_left g l a.
Proof.
  intros Hfg. revert a. induction l as [|b l IH]; intros a; simpl;
    [reflexivity|]. rewrite Hfg. apply IH.
Qed.

(** X19. A selector whose query raises is passed over and the sweep goes
    on: the result is the one of a page that answers that selector with no
    element. *)
Theorem failing_query_is_an_empty_query (netloc : pystr -> option pystr)
    (query_selector_all : pystr -> option (list handle)) (url : pystr) :
  click_all_links_and_buttons netloc query_selector_all url
  = click_all_links_and_buttons netloc
      (fun selector => Some (default [] (query_selector_all selector))) url.
Proof.
  unfold click_all_links_and_buttons.
  assert (Hd : forall td,
             discover_clickable netloc query_selector_all td
             = discover_clickable netloc
                 (fun selector =>
                    Some (default [] (query_selector_all selector))) td).
  { intros td. unfold discover_clickable. apply fold_left_pointwise.
    intros st selector. destruct (query_selector_all selector); reflexivity. }
  rewrite Hd. reflexivity.
Qed.

(** X20. A link is classified external exactly when its href is not
    empty, the page has a netloc, the href parses to a netloc that is not
    empty, and the two netlocs differ as strings; an href without a netloc
    (a relative path, [mailto:], [javascript:]) or one on which [urlparse]
    raises counts as internal. *)
Theorem external_link_characterized (netloc : pystr -> option pystr)
    (href target_domain : pystr) :
  is_external_link netloc href target_domain = true
  <-> href <> [] /\ target_domain <> []
      /\ exists link_domain, netloc href = Some link_domain
                             /\ link_domain <> []
                             /\ link_domain <> target_domain.
Proof.
  unfold is_external_link. split.
  - destruct href as [|h href]; [discriminate|].
    destruct target_domain as [|t td]; [discriminate|]. simpl.
    destruct (netloc (h :: href)) as [[|l ld]|]; try discriminate. simpl.
    case_bool_decide as Heq; [discriminate|]. intros _.
    split; [discriminate|]. split; [discriminate|].
    exists (l :: ld). split; [reflexivity|]. split; [discriminate|exact Heq].
  - intros (Hh & Ht & ld & Hn & Hl & Hne).
    apply (is_external_link_true netloc href target_domain ld); assumption.
Qed.

(** * Further properties of the suggestion loop *)

Lemma suggestion_rounds_prefix (len : nat) (reprobes : nat -> reprobe)
    (rest : list suggestion) :
  forall j : nat, suggestion_rounds len reprobes j rest `prefix_of` rest.
Proof.
  induction rest as [|x rest IH]; intros j; simpl; [reflexivity|].
  destruct (negb (s_evaluate x)); [apply prefix_nil|].
  destruct (negb (s_click x)); [apply prefix_cons, prefix_nil|].
  destruct (j <? len - 1)%nat.
  - destruct (negb (rp_field (reprobes j))); [apply prefix_cons, prefix_nil|].
    destruct (j + 1 <? length (rp_found (reprobes j)))%nat;
      [apply prefix_cons, IH | apply prefix_cons, prefix_nil].
  - apply prefix_cons, IH.
Qed.

Lemma suggestion_rounds_all (len : nat) (reprobes : nat -> reprobe)
    (rest : list suggestion) :
  Forall (fun s => s_evaluate s = true /\ s_click s = true) rest ->
  (forall j, (j + 1 < len)%nat ->
             rp_field (reprobes j) = true
             /\ (j + 1 < length (rp_found (reprobes j)))%nat) ->
  forall j : nat, suggestion_rounds len reprobes j rest = rest.
Proof.
  intros Hok Hrp. induction Hok as [|x rest [He Hc] _ IH]; intros j; simpl;
    [reflexivity|].
  rewrite He, Hc. simpl.
  destruct (Nat.ltb_spec j (len - 1)) as [Hj|Hj]; [|rewrite IH; reflexivity].
  destruct (Hrp j ltac:(lia)) as [Hf Hl]. rewrite Hf. simpl.
  apply Nat.ltb_lt in Hl. rewrite Hl, IH. reflexivity.
Qed.

(** X21. The clicks of the suggestion loop are a prefix of the first
    snapshot, so there are at most as many as it holds; all of its handles
    are clicked when every handle can be read and clicked and every
    re-probe succeeds on the field and returns more than [j + 1]
    suggestions.  The same loop runs in [_handle_input_interaction]. *)
Theorem suggestion_clicks_are_a_prefix (dropdown_elements : list suggestion)
    (reprobes : nat -> reprobe) :
  click_suggestions dropdown_elements reprobes `prefix_of` dropdown_elements
  /\ (length (click_suggestions dropdown_elements reprobes)
      <= length dropdown_elements)%nat
  /\ (Forall (fun s => s_evaluate s = true /\ s_click s = true)
             dropdown_elements ->
      (forall j, (j + 1 < length dropdown_elements)%nat ->
                 rp_field (reprobes j) = true
                 /\ (j + 1 < length (rp_found (reprobes j)))%nat) ->
      click_suggestions dropdown_elements reprobes = dropdown_elements).
Proof.
  split; [apply suggestion_rounds_prefix|].
  split; [apply prefix_length, suggestion_rounds_prefix|].
  intros Hok Hrp. apply suggestion_rounds_all; assumption.
Qed.

Lemma suggestion_clicks_are_a_prefix_witness :
  click_suggestions demo_snapshot demo_reprobes = demo_snapshot.
Proof.
  apply (proj2 (proj2 (suggestion_clicks_are_a_prefix demo_snapshot
                         demo_reprobes))).
  - repeat constructor.
  - intros j Hj. split; [reflexivity | simpl in *; lia].
Defined.

(** * Further properties of the summary *)

Lemma count_type_sum (T : list (pyval * nat)) (ty : pyval) :
  list_sum (map snd (count_type T ty)) = Datatypes.S (list_sum (map snd T)).
Proof.
  induction T as [|[k n] T IH]; simpl; [reflexivity|].
  destruct (Py.eqb k ty); simpl; [reflexivity | rewrite IH; lia].
Qed.

Lemma count_type_positive (T : list (pyval * nat)) (ty : pyval) :
  Forall (fun p => (1 <= snd p)%nat) T ->
  Forall (fun p => (1 <= snd p)%nat) (count_type T ty).
Proof.
  induction 1 as [|[k n] T Hk HT IH]; simpl.
  - constructor; [simpl; lia | constructor].
  - destruct (Py.eqb k ty); constructor; simpl in *;
      try lia; assumption.
Qed.

Lemma count_type_keys (P : pyval -> Prop) (T : list (pyval * nat))
    (ty : pyval) :
  Forall (fun p => P (fst p)) T -> P ty ->
  Forall (fun p => P (fst p)) (count_type T ty).
Proof.
  intros HT Hty. induction HT as [|[k n] T Hk HT IH]; simpl.
  - constructor; [exact Hty | constructor].
  - destruct (Py.eqb k ty); constructor; simpl in *; assumption.
Qed.

Lemma count_type_distinct (T : list (pyval * nat)) (ty : pyval) :
  ForallOrdPairs (fun p q => Py.eqb (fst p) (fst q) = false) T ->
  ForallOrdPairs (fun p q => Py.eqb (fst p) (fst q) = false)
                 (count_type T ty).
Proof.
  induction 1 as [|[k n] T Hk HT IH]; simpl.
  - constructor; constructor.
  - destruct (Py.eqb k ty) eqn:Heq.
    + constructor; [exact Hk | exact HT].
    + constructor; [|exact IH].
      apply (count_type_keys (fun x => Py.eqb k x = false)); assumption.
Qed.

(** X24. The counts by type that the final summary prints add up to the
    number of records: every record is counted once, under the first type
    that compares equal to its [error_type] (['unknown'] when the record has
    none); each count is at least 1 and no two types of the summary compare
    equal.  The summary says that nothing was captured exactly when the
    ledger holds no record. *)
Theorem summary_counts_add_up (error_data : ledger) :
  list_sum (map snd (error_types_summary (errors error_data)))
  = length (errors error_data)
  /\ Forall (fun p => (1 <= snd p)%nat)
            (error_types_summary (errors error_data))
  /\ ForallOrdPairs (fun p q => Py.eqb (fst p) (fst q) = false)
                    (error_types_summary (errors error_data))
  /\ (display_final_summary error_data = NoErrorsCaptured
      <-> errors error_data = [])
  /\ (errors error_data <> [] ->
      display_final_summary error_data
      = Captured (length (errors error_data))
                 (error_types_summary (errors error_data))).
Proof.
  assert (H : forall (l : list dict) (T : list (pyval * nat)),
             let T' := fold_left
                         (fun error_types error =>
                            count_type error_types
                              (dict_get error "error_type"
                                        (PStr (lit "unknown")))) l T in
             list_sum (map snd T') = (list_sum (map snd T) + length l)%nat
             /\ (Forall (fun p => (1 <= snd p)%nat) T ->
                 Forall (fun p => (1 <= snd p)%nat) T')
             /\ (ForallOrdPairs
                   (fun p q => Py.eqb (fst p) (fst q) = false) T ->
                 ForallOrdPairs
                   (fun p q => Py.eqb (fst p) (fst q) = false) T')).
  { induction l as [|e l IH]; intros T; simpl.
    - split; [lia | tauto].
    - destruct (IH (count_type T (dict_get e "error_type"
                                     (PStr (lit "unknown")))))
        as (Hs & Hp & Hd).
      rewrite count_type_sum in Hs.
      split; [simpl in *; lia|]. split; intros HT.
      + apply Hp, count_type_positive, HT.
      + apply Hd, count_type_distinct, HT. }
  destruct (H (errors error_data) []) as (Hs & Hp & Hd).
  split; [exact Hs|]. split; [apply Hp; constructor|].
  split; [apply Hd; constructor|].
  unfold display_final_summary.
  destruct (errors error_data) as [|e l]; simpl.
  - split; [tauto | congruence].
  - split; [split; discriminate | reflexivity].
Qed.

(** * The XPath of an element *)

Lemma lit_inj (s1 s2 : string) : lit s1 = lit s2 -> s1 = s2.
Proof.
  unfold lit. revert s2.
  induction s1 as [|a s1 IH]; intros [|b s2]; simpl; try discriminate;
    [reflexivity|].
  intros [= Hab Hrest]. f_equal; [|apply IH, Hrest].
  rewrite <- (ascii_N_embedding a), <- (ascii_N_embedding b), Hab.
  reflexivity.
Qed.

Lemma str_int_inj (a b : Z) : str (PInt a) = str (PInt b) -> a = b.
Proof.
  simpl. intros H. apply lit_inj in H.
  assert (Hnil : forall z, Z.to_int z <> Decimal.Pos Decimal.Nil
                           /\ Z.to_int z <> Decimal.Neg Decimal.Nil).
  { intros [|p|p]; simpl; split; try discriminate;
      intros [= Hp]; exact (DecimalPos.Unsigned.to_uint_nonnil p Hp). }
  apply (f_equal NilZero.int_of_string) in H.
  rewrite !NilZero.isi in H by apply Hnil.
  injection H as H.
  rewrite <- (DecimalZ.of_to a), <- (DecimalZ.of_to b), H. reflexivity.
Qed.

Lemma digits_of_uint (d : Decimal.uint) (c : N) :
  In c (lit (NilEmpty.string_of_uint d)) -> (48 <= c <= 57)%N.
Proof.
  induction d; simpl; try tauto;
    (intros [<-|Hin]; [vm_compute; split; discriminate | apply IHd, Hin]).
Qed.

Lemma chars_of_int (z : Z) (c : N) :
  In c (str (PInt z)) -> c = 45%N \/ (48 <= c <= 57)%N.
Proof.
  simpl. destruct (Z.to_int z) as [d|d]; simpl.
  - destruct d; simpl;
      try (intros [<-|Hin];
           [right; vm_compute; split; discriminate
           | right; apply (digits_of_uint _ _ Hin)]).
    intros [<-|[]]. right. vm_compute. split; discriminate.
  - intros [<-|Hin]; [left; reflexivity|]. right.
    destruct d; simpl in Hin;
      try (destruct Hin as [<-|Hin];
           [vm_compute; split; discriminate
           | apply (digits_of_uint _ _ Hin)]).
    destruct Hin as [<-|[]]. vm_compute. split; discriminate.
Qed.

Lemma split_at_first (c : N) (a b x y : pystr) :
  ~ In c a -> ~ In c b -> a ++ c :: x = b ++ c :: y -> a = b /\ x = y.
Proof.
  revert b. induction a as [|h a IH]; intros [|k b] Ha Hb; simpl.
  - intros [= ->]. split; reflexivity.
  - intros [= <- _]. exfalso. apply Hb. left. reflexivity.
  - intros [= -> _]. exfalso. apply Ha. left. reflexivity.
  - intros [= -> Hrest].
    destruct (IH b) as [-> ->]; [| |exact Hrest|split; reflexivity];
      intros Hin; [apply Ha | apply Hb]; right; exact Hin.
Qed.

(** A segment [/name[idx]] of an XPath. *)
Lemma segments_inj (l1 l2 : list (pystr * nat)) :
  Forall (fun s => ~ In 91%N (fst s)) l1 ->
  Forall (fun s => ~ In 91%N (fst s)) l2 ->
  concat (map (fun s => lit "/" ++ fst s ++ lit "["
                        ++ str (PInt (Z.of_nat (snd s))) ++ lit "]") l1)
  = concat (map (fun s => lit "/" ++ fst s ++ lit "["
                          ++ str (PInt (Z.of_nat (snd s))) ++ lit "]") l2) ->
  l1 = l2.
Proof.
  intros H1. revert l2.
  induction H1 as [|[a n] l1 Ha _ IH]; intros [|[b m] l2] H2; simpl;
    try discriminate; [reflexivity|].
  inversion H2 as [|? ? Hb H2']; subst. simpl in *.
  change (lit "/") with [47%N]. change (lit "[") with [91%N].
  change (lit "]") with [93%N]. simpl.
  rewrite <- !app_assoc. simpl. intros [= Heq].
  apply split_at_first in Heq as [-> Heq]; [|assumption|assumption].
  rewrite <- !app_assoc in Heq. simpl in Heq.
  apply split_at_first in Heq as [Hn Heq].
  - apply str_int_inj, Nat2Z.inj in Hn. subst m.
    f_equal. apply IH; assumption.
  - intros Hin. apply chars_of_int in Hin as [Hin|Hin]; [discriminate | lia].
  - intros Hin. apply chars_of_int in Hin as [Hin|Hin]; [discriminate | lia].
Qed.

Lemma getElementXPath_concat (lower : pystr -> pystr) (chain : list level) :
  getElementXPath lower chain
  = concat (map (fun s => lit "/" ++ fst s ++ lit "["
                          ++ str (PInt (Z.of_nat (snd s))) ++ lit "]")
                (map (fun lv => (lower (lv_tagName lv), sibling_index lv))
                     (rev chain))).
Proof.
  unfold getElementXPath.
  assert (H : forall acc,
             fold_left (xpath_step lower) chain acc
             = concat (map (fun s => lit "/" ++ fst s ++ lit "["
                                     ++ str (PInt (Z.of_nat (snd s)))
                                     ++ lit "]")
                           (map (fun lv => (lower (lv_tagName lv),
                                            sibling_index lv))
                                (rev chain))) ++ acc).
  { induction chain as [|lv chain IH]; intros acc; [reflexivity|].
    cbn [fold_left rev]. rewrite IH, !map_app, concat_app.
    unfold xpath_step. cbn [map concat fst snd].
    rewrite <- !app_assoc. reflexivity. }
  rewrite H, app_nil_r. reflexivity.
Qed.

Lemma levels_tags (e : dom) (path : list nat) (below : list level) :
  levels_to e path = Some below ->
  Forall (fun lv => In (lv_tagName lv) (tags_of e)) below.
Proof.
  revert e below. induction path as [|i rest IH]; intros e below; simpl.
  - destruct e; intros [= <-]; constructor.
  - destruct e as [t0 children|]; [|discriminate].
    destruct (nth_error children i) as [[t cs|]|] eqn:Hi; try discriminate.
    destruct (levels_to (Element t cs) rest) as [l'|] eqn:Hl;
      [|discriminate].
    intros [= <-]. apply nth_error_In in Hi.
    assert (Hsub : forall x, In x (tags_of (Element t cs)) ->
                             In x (tags_of (Element t0 children))).
    { intros x Hx. cbn [tags_of]. right. apply in_flat_map.
      exists (Element t cs). split; assumption. }
    constructor.
    + apply Hsub. left. reflexivity.
    + eapply List.Forall_impl; [|apply (IH _ _ Hl)]. intros lv. apply Hsub.
Qed.

Lemma same_tag_count_grows (t : pystr) (children : list dom) :
  forall (i j : nat) (cs : list dom),
    (i < j)%nat -> nth_error children i = Some (Element t cs) ->
    (length (List.filter (fun sib => bool_decide (sib = Some t))
                         (map node_tag (firstn i children)))
     < length (List.filter (fun sib => bool_decide (sib = Some t))
                           (map node_tag (firstn j children))))%nat.
Proof.
  induction children as [|c children IH]; intros i j cs Hij Hi.
  - destruct i; discriminate.
  - destruct j as [|j]; [lia|]. destruct i as [|i].
    + injection Hi as ->. cbn [firstn map node_tag List.filter].
      rewrite bool_decide_eq_true_2 by reflexivity. simpl. lia.
    + cbn [firstn map List.filter]. simpl in Hi.
      specialize (IH i j cs ltac:(lia) Hi).
      destruct (bool_decide (node_tag c = Some t)); simpl; lia.
Qed.

Lemma sibling_index_of_child (t : pystr) (i : nat) (children : list dom) :
  sibling_index (Level t (rev (map node_tag (firstn i children))))
  = Datatypes.S
      (length (List.filter (fun sib => bool_decide (sib = Some t))
                           (map node_tag (firstn i children)))).
Proof.
  unfold sibling_index. cbn [lv_tagName lv_previous].
  rewrite filter_rev, length_rev. reflexivity.
Qed.

Lemma levels_identify (lower : pystr -> pystr) (e : dom) :
  (forall t1 t2, In t1 (tags_of e) -> In t2 (tags_of e) ->
                 lower t1 = lower t2 -> t1 = t2) ->
  forall (p1 p2 : list nat) (l1 l2 : list level),
    levels_to e p1 = Some l1 -> levels_to e p2 = Some l2 ->
    map (fun lv => (lower (lv_tagName lv), sibling_index lv)) l1
    = map (fun lv => (lower (lv_tagName lv), sibling_index lv)) l2 ->
    p1 = p2.
Proof.
  intros Hinj p1. revert e Hinj.
  induction p1 as [|i r1 IH]; intros e Hinj [|j r2] l1 l2; simpl.
  - reflexivity.
  - destruct e as [t0 children|]; [|discriminate]. intros [= <-].
    destruct (nth_error children j) as [[t cs|]|]; try discriminate.
    destruct (levels_to (Element t cs) r2); [|discriminate].
    intros [= <-]. discriminate.
  - destruct e as [t0 children|]; [|discriminate].
    destruct (nth_error children i) as [[t cs|]|]; try discriminate.
    destruct (levels_to (Element t cs) r1); [|discriminate].
    intros [= <-] [= <-]. discriminate.
  - destruct e as [t0 children|]; [|discriminate].
    destruct (nth_error children i) as [[t1 cs1|]|] eqn:Hi; try discriminate.
    destruct (levels_to (Element t1 cs1) r1) as [l1'|] eqn:Hl1;
      [|discriminate].
    destruct (nth_error children j) as [[t2 cs2|]|] eqn:Hj; try discriminate.
    destruct (levels_to (Element t2 cs2) r2) as [l2'|] eqn:Hl2;
      [|discriminate].
    intros [= <-] [= <-]. cbn [map lv_tagName].
    rewrite !sibling_index_of_child. intros [= Hname Hidx Hrest].
    assert (Hin : forall t cs k, nth_error children k = Some (Element t cs) ->
                    forall x, In x (tags_of (Element t cs)) ->
                              In x (tags_of (Element t0 children))).
    { intros t cs k Hk x Hx. cbn [tags_of]. right. apply in_flat_map.
      exists (Element t cs). split; [eapply nth_error_In, Hk | exact Hx]. }
    assert (t1 = t2) as <-.
    { apply Hinj; [eapply Hin; [exact Hi | left; reflexivity]
                  | eapply Hin; [exact Hj | left; reflexivity]
                  | exact Hname]. }
    assert (i = j) as <-.
    { destruct (Nat.lt_trichotomy i j) as [Hlt|[Heq|Hgt]]; [|exact Heq|].
      - pose proof (same_tag_count_grows t1 children i j cs1 Hlt Hi). lia.
      - pose proof (same_tag_count_grows t1 children j i cs2 Hgt Hj). lia. }
    rewrite Hi in Hj. injection Hj as <-.
    f_equal. apply (IH (Element t1 cs1)) with (l1 := l1') (l2 := l2');
      try assumption.
    intros x y Hx Hy. apply Hinj; eapply Hin; eassumption.
Qed.

(** X27. The XPath identifies the element: in a tree whose tag names, put
    in lower case, hold no [[] and stay distinct when they were distinct, two
    elements with the same XPath are the same element, so [visited_selectors]
    never mistakes one element of a page for another. *)
Theorem xpath_identifies_element (toLowerCase : pystr -> pystr) (root : dom)
    (p1 p2 : list nat) (xpath : pystr) :
  (forall t, In t (tags_of root) -> ~ In 91%N (toLowerCase t)) ->
  (forall t1 t2, In t1 (tags_of root) -> In t2 (tags_of root) ->
                 toLowerCase t1 = toLowerCase t2 -> t1 = t2) ->
  get_xpath toLowerCase root p1 = Some xpath ->
  get_xpath toLowerCase root p2 = Some xpath ->
  p1 = p2.
Proof.
  intros Hname Hinj. unfold get_xpath, ancestry.
  destruct root as [t children|]; [|discriminate].
  destruct (levels_to (Element t children) p1) as [l1|] eqn:H1;
    [|discriminate].
  destruct (levels_to (Element t children) p2) as [l2|] eqn:H2;
    [|discriminate].
  cbn [option_map]. rewrite !getElementXPath_concat, !rev_involutive.
  intros Hx1 Hx2. rewrite <- Hx1 in Hx2. clear Hx1.
  apply (inj Some) in Hx2. apply segments_inj in Hx2.
  - cbn [map] in Hx2. injection Hx2 as Hx2.
    symmetry. eapply (levels_identify toLowerCase); eassumption.
  - apply Forall_map. constructor; [apply Hname; left; reflexivity|].
    eapply List.Forall_impl; [|apply (levels_tags _ _ _ H2)].
    intros lv Hlv. apply Hname, Hlv.
  - apply Forall_map. constructor; [apply Hname; left; reflexivity|].
    eapply List.Forall_impl; [|apply (levels_tags _ _ _ H1)].
    intros lv Hlv. apply Hname, Hlv.
Qed.

Lemma xpath_identifies_element_witness :
  get_xpath ascii_lower demo_document [0; 2]%nat
  = Some (lit "/html[1]/body[1]/a[2]")
  /\ (forall p : list nat,
        get_xpath ascii_lower demo_document p
        = Some (lit "/html[1]/body[1]/a[2]") -> p = [0; 2]%nat).
Proof.
  assert (Hname : forall t, In t (tags_of demo_document) ->
                            ~ In 91%N (ascii_lower t)).
  { intros t Ht. vm_compute in Ht.
    repeat (destruct Ht as [<-|Ht]; [vm_compute; intuition discriminate|]).
    destruct Ht. }
  assert (Hinj : forall t1 t2, In t1 (tags_of demo_document) ->
                               In t2 (tags_of demo_document) ->
                               ascii_lower t1 = ascii_lower t2 -> t1 = t2).
  { intros t1 t2 H1 H2. vm_compute in H1, H2.
    repeat (destruct H1 as [<-|H1];
            [repeat (destruct H2 as [<-|H2];
                     [vm_compute; first [reflexivity | discriminate]|]);
             destruct H2|]).
    destruct H1. }
  assert (Hx : get_xpath ascii_lower demo_document [0; 2]%nat
               = Some (lit "/html[1]/body[1]/a[2]"))
    by (vm_compute; reflexivity).
  split; [exact Hx|].
  intros p Hp.
  exact (xpath_identifies_element ascii_lower demo_document p [0; 2]%nat
           (lit "/html[1]/body[1]/a[2]") Hname Hinj Hp Hx).
Defined.


